(** * Validators for path-addressed state: a model of [internal/check/check.go]

    The Go package [check] wraps [ygnmi.Lookup] and [ygnmi.Watch] into
    [Validator] objects.  This development embeds the package's functions one
    by one and proves the properties stated for them.

    External collaborators ([ygnmi], [ygot], [fmt], [reflect], [go-cmp],
    gRPC [status]) are modelled at their interface:
    - an [error] is a tree of the few error shapes the package can tell apart;
    - a client answers a lookup with a value or an error and a watch with a
      finite run of values ended by a terminal error;
    - every call the package makes to a collaborator or to a caller-supplied
      function is written to a log, so that "is never invoked" and "performs
      exactly one fetch" are statements about that log. *)

From Stdlib Require Import ZArith Lia.
From stdpp Require Import base strings list sorting pretty gmap.

(** ** Paths and queries *)

(** What a fallible collaborator returned: a result, or an error of which
    only the [%v] rendering is used. *)
Inductive Resolved (A : Type) : Type :=
| Ok (a : A)
| Err (text : string).
Arguments Ok {A} a.
Arguments Err {A} text.

(** A gNMI path, seen through [ygot.PathToString]. *)
Record gnmiPath : Type := { PathToString : Resolved string }.

(** A [ygnmi.PathStruct], seen through [ygnmi.ResolvePath]. *)
Record PathStruct : Type := { ResolvePath : Resolved gnmiPath }.

(** A [ygnmi.SingletonQuery]: the package only ever asks it for its path
    struct, an interface value that may be nil. *)
Record Query : Type := { QueryPathStruct : option PathStruct }.

(** [FormatPath], lines 161-174. *)
Definition FormatPath (path : option PathStruct) : string :=
  match path with
  | None => "<nil path>"
  | Some p =>
      match ResolvePath p with
      | Err err => "<Unprintable path: " +:+ err +:+ ">"
      | Ok gpath =>
          match PathToString gpath with
          | Err err => "<Unprintable path: " +:+ err +:+ ">"
          | Ok str => str
          end
      end
  end.

(** ** Errors *)

(** gRPC status codes are a [uint32]; [codes.DeadlineExceeded] is 4. *)
Definition Code : Type := N.
Definition DeadlineExceeded : Code := 4%N.

(** The struct [validationError], lines 221-229, over the type of errors. *)
Record validationErrorOf (E : Type) : Type := {
  query : Query;
  validationErr : option E;
  failureCause : option E;
}.
Arguments query {E} _.
Arguments validationErr {E} _.
Arguments failureCause {E} _.

(** A non-nil Go [error].  A nil [error] is [None] of [option error]. *)
#[local] Set Warnings "-register-all".
Inductive error : Type :=
| errorString (text : string)               (* fmt.Errorf without %w, errors.New *)
| statusError (code : Code) (text : string) (* an error with a GRPCStatus() method *)
| wrapError (text : string) (inner : error) (* an error with an Unwrap() method *)
| Continue                                  (* the sentinel ygnmi.Continue *)
| validationError (f : validationErrorOf error).

(** [errors.As(err, &stat)] for the interface with [GRPCStatus()], followed
    by [stat.GRPCStatus().Code()]: the code of the first status error on the
    unwrap chain.  [validationError] has no [Unwrap] method. *)
Fixpoint GRPCStatusCode (err : error) : option Code :=
  match err with
  | statusError code _ => Some code
  | wrapError _ inner => GRPCStatusCode inner
  | _ => None
  end.

(** [isTimeout], lines 259-270. *)
Definition isTimeout (err : option error) : bool :=
  match err with
  | None => false
  | Some e =>
      match GRPCStatusCode e with
      | Some code => bool_decide (code = DeadlineExceeded)
      | None => false
      end
  end.

(** [errors.As(err, &checkErr)] with [checkErr] a [*validationError]. *)
Fixpoint As_validationError (err : error) : option (validationErrorOf error) :=
  match err with
  | validationError f => Some f
  | wrapError _ inner => As_validationError inner
  | _ => None
  end.

(** [errors.Is(err, ygnmi.Continue)]. *)
Fixpoint Is_Continue (err : error) : bool :=
  match err with
  | Continue => true
  | wrapError _ inner => Is_Continue inner
  | _ => false
  end.

(** [qStr], lines 231-233. *)
Definition qStr {E} (f : validationErrorOf E) : string :=
  FormatPath (QueryPathStruct (query f)).

(** The method [Error()] of every error shape; for [validationError] it is
    lines 235-254. *)
Fixpoint Error (err : error) : string :=
  match err with
  | errorString text => text
  | statusError _ text => text
  | wrapError text _ => text
  | Continue => "condition not true"
  | validationError f =>
      if isTimeout (failureCause f) then
        match validationErr f with
        | Some verr => qStr f +:+ ": " +:+ Error verr +:+ " (deadline exceeded)"
        | None => qStr f +:+ ": deadline exceeded before any values were fetched"
        end
      else
        match failureCause f with
        | Some cause => qStr f +:+ ": " +:+ Error cause
        | None =>
            match validationErr f with
            | Some verr => qStr f +:+ ": " +:+ Error verr
            | None => qStr f +:+ ": unknown error"
            end
        end
  end.

(** ** Values *)

(** [ygnmi.Value[T]]: the held value and whether one is held.  Timestamps and
    the path of the value are not read by the package. *)
Record Value (T : Type) : Type := { val : T; present : bool }.
Arguments val {T} _.
Arguments present {T} _.

(** [Value.Val()] and [Value.IsPresent()]. *)
Definition Val {T} (v : Value T) : T * bool := (val v, present v).
Definition IsPresent {T} (v : Value T) : bool := present v.

(** What the package needs of a value type [T]: its [%#v] rendering
    ([fmt]), [reflect.DeepEqual] and [cmp.Equal]. *)
Class GoValue (T : Type) : Type := {
  GoString : T -> string;
  DeepEqual : T -> T -> bool;
  cmpEqual : T -> T -> bool;
}.

(** [FormatValue], lines 177-186, on a pointer that may be nil. *)
Definition FormatValue {T} `{GoValue T} (v : option (Value T)) : string :=
  match v with
  | None => "nil"
  | Some v =>
      let '(val, present) := Val v in
      if negb present then "no value" else GoString val
  end.

(** ** Logged computations *)

(** A computation that returns an [A] and the list of calls it made. *)
Definition Logged (E A : Type) : Type := A * list E.

#[export] Instance Logged_ret {E} : MRet (Logged E) := fun A a => (a, []).
#[export] Instance Logged_bind {E} : MBind (Logged E) :=
  fun A B k m => let r := k m.1 in (r.1, m.2 ++ r.2).

Definition tell {E} (e : E) : Logged E unit := (tt, [e]).
Definition relabel {E F A} (f : E -> F) (m : Logged E A) : Logged F A :=
  (m.1, f <$> m.2).

(** ** Contexts and time *)

(** [time.Time] and [time.Duration] in nanoseconds. *)
Definition Time : Type := Z.
Definition Duration : Type := Z.

(** A [context.Context], of which a watch sees the deadline. *)
Record Context : Type := { Deadline : option Time }.

Definition Background : Context := {| Deadline := None |}.

(** [context.WithDeadline]: the earlier of the parent's deadline and [d]. *)
Definition WithDeadline (parent : Context) (d : Time) : Context :=
  {| Deadline := Some (match Deadline parent with
                       | Some p => Z.min p d
                       | None => d
                       end) |}.

(** [context.WithTimeout] is [WithDeadline(parent, time.Now().Add(timeout))]. *)
Definition WithTimeout (now : Time) (parent : Context) (timeout : Duration) : Context :=
  WithDeadline parent (now + timeout)%Z.

(** ** The client and the validator core *)

Section Core.
Context {T : Type}.

(** What [ygnmi.Lookup] returned: [(value, nil)] or [(nil, err)]. *)
Inductive LookupResult : Type :=
| Fetched (v : Value T)
| FetchFailed (err : error).

(** What a subscription brings: the values it delivers, in order, and the
    error that ends it (context expiry, cancellation, transport failure).
    A subscription that neither ends nor ever delivers a passing value, on
    which [Await] does not return, is not among these. *)
Record WatchStream : Type := {
  delivered : list (Value T);
  terminal : error;
}.

(** A [*ygnmi.Client] together with the device behind it. *)
Record Client : Type := {
  lookupReply : Query -> LookupResult;
  watchReply : Context -> Query -> WatchStream;
}.

(** A call made by a validation function: the caller's predicate applied
    to a held value. *)
Inductive Call : Type :=
| CallPredicate (got : T).

(** A call made by the validator core. *)
Inductive Event : Type :=
| EvLookup (q : Query)
| EvWatch (ctx : Context) (q : Query)
| EvValidationFn (v : Value T)
| EvCall (c : Call).

(** The struct [validation], lines 273-276. *)
Record validation : Type := {
  vquery : Query;
  validationFn : Value T -> Logged Call (option error);
}.

(** [ygnmi.Lookup(context.Background(), client, query)]. *)
Definition Lookup (client : Client) (q : Query) : Logged Event LookupResult :=
  tell (EvLookup q) ≫= λ _, mret (lookupReply client q).

(** The call [vd.validationFn(v)]. *)
Definition callValidationFn (vd : validation) (v : Value T)
  : Logged Event (option error) :=
  tell (EvValidationFn v) ≫= λ _, relabel EvCall (validationFn vd v).

(** The loop of [ygnmi.Watch]: [pred] is applied to each delivered value in
    turn, with the variables its closure captured as state [S]; nil stops
    the watch with success, [Continue] asks for the next value, any other
    error stops the watch with that error; when no value is left the
    stream's terminal error is the result. *)
Fixpoint watchLoop {S : Type}
    (pred : Value T -> S -> Logged Event (option error * S))
    (values : list (Value T)) (terminal : error) (s : S)
  : Logged Event (option error * S) :=
  match values with
  | [] => mret (Some terminal, s)
  | v :: rest =>
      pred v s ≫= λ '(r, s'),
      match r with
      | None => mret (None, s')
      | Some err =>
          if Is_Continue err then watchLoop pred rest terminal s'
          else mret (Some err, s')
      end
  end.

(** [ygnmi.Watch(ctx, client, query, pred)] followed by [watcher.Await()]. *)
Definition Watch {S : Type} (ctx : Context) (client : Client) (q : Query)
    (pred : Value T -> S -> Logged Event (option error * S)) (s : S)
  : Logged Event (option error * S) :=
  tell (EvWatch ctx q) ≫= λ _,
  let stream := watchReply client ctx q in
  watchLoop pred (delivered stream) (terminal stream) s.

(** [Path], lines 281-283. *)
Definition Path (vd : validation) : string :=
  FormatPath (QueryPathStruct (vquery vd)).

(** [Check], lines 293-307. *)
Definition Check (vd : validation) (client : Client)
  : Logged Event (option error) :=
  Lookup client (vquery vd) ≫= λ r,
  match r with
  | FetchFailed err =>
      mret (Some (validationError
        {| query := vquery vd; validationErr := None; failureCause := Some err |}))
  | Fetched lastVal =>
      callValidationFn vd lastVal ≫= λ err,
      match err with
      | Some err =>
          mret (Some (validationError
            {| query := vquery vd; validationErr := Some err; failureCause := None |}))
      | None => mret None
      end
  end.

(** The callback [Await] hands to [ygnmi.Watch], lines 325-330; its state is
    the captured variable [lastInvalid]. *)
Definition awaitPred (vd : validation) (v : Value T) (lastInvalid : option error)
  : Logged Event (option error * option error) :=
  callValidationFn vd v ≫= λ lastInvalid,
  match lastInvalid with
  | Some _ => mret (Some Continue, lastInvalid)
  | None => mret (None, lastInvalid)
  end.

(** [Await], lines 314-343. *)
Definition Await (vd : validation) (ctx : Context) (client : Client)
  : Logged Event (option error) :=
  Check vd client ≫= λ err,
  match err with
  | None => mret err
  | Some e =>
      match As_validationError e with
      | None => mret err
      | Some checkErr =>
          match failureCause checkErr with
          | Some _ => mret err
          | None =>
              let lastInvalid := validationErr checkErr in
              Watch ctx client (vquery vd) (awaitPred vd) lastInvalid
                ≫= λ '(err, lastInvalid),
              match err with
              | Some err =>
                  mret (Some (validationError
                    {| query := vquery vd;
                       validationErr :=
                         match lastInvalid with
                         | Some li => Some li
                         | None => None
                         end;
                       failureCause := Some err |}))
              | None => mret None
              end
          end
      end
  end.

(** [AwaitFor], lines 347-354; [now] is the reading of [time.Now()]. *)
Definition AwaitFor (now : Time) (vd : validation) (timeout : Duration)
    (client : Client) : Logged Event (option error) :=
  if (timeout <=? 0)%Z then Check vd client
  else Await vd (WithTimeout now Background timeout) client.

(** [AwaitUntil], lines 358-365; [time.Time.Before] is strict. *)
Definition AwaitUntil (now : Time) (vd : validation) (deadline : Time)
    (client : Client) : Logged Event (option error) :=
  if (deadline <? now)%Z then Check vd client
  else Await vd (WithDeadline Background deadline) client.

(** ** The factories *)

(** [Validate], lines 368-370. *)
Definition Validate (q : Query)
    (validationFn : Value T -> Logged Call (option error)) : validation :=
  {| vquery := q; validationFn := validationFn |}.

(** The call [predicate(got)]. *)
Definition callPredicate (predicate : T -> bool) (got : T) : Logged Call bool :=
  tell (CallPredicate got) ≫= λ _, mret (predicate got).

Context `{GoValue T}.

(** [Predicate], lines 377-385.  [||] evaluates [predicate(got)] only when
    [!present] is false. *)
Definition Predicate (q : Query) (wantMsg : string) (predicate : T -> bool)
  : validation :=
  Validate q (λ vgot,
    let '(got, present) := Val vgot in
    (if negb present then mret true
     else callPredicate predicate got ≫= λ ok, mret (negb ok)) ≫= λ failed,
    if (failed : bool) then
      mret (Some (errorString
        ("got " +:+ FormatValue (Some vgot) +:+ ", " +:+ wantMsg)))
    else mret None).

(** [Equal], lines 388-392. *)
Definition Equal (q : Query) (want : T) : validation :=
  Predicate q ("want " +:+ GoString want) (λ got, DeepEqual got want).

(** [NotEqual], lines 395-399. *)
Definition NotEqual (q : Query) (wantNot : T) : validation :=
  Predicate q ("want anything but " +:+ GoString wantNot)
    (λ got, negb (DeepEqual got wantNot)).

(** [EqualOrNil], lines 402-410. *)
Definition EqualOrNil (q : Query) (want : T) : validation :=
  Validate q (λ vgot,
    let '(got, present) := Val vgot in
    if present && negb (DeepEqual got want) then
      mret (Some (errorString
        ("got " +:+ FormatValue (Some vgot) +:+ ", want " +:+ GoString want
         +:+ " or no value")))
    else mret None).

(** [Present], lines 413-417. *)
Definition Present (q : Query) : validation :=
  Predicate q "want any value" (λ _, true).

(** [NotPresent], lines 420-427. *)
Definition NotPresent (q : Query) : validation :=
  Validate q (λ vgot,
    if IsPresent vgot then
      mret (Some (errorString
        ("got " +:+ FormatValue (Some vgot) +:+ ", want no value")))
    else mret None).
End Core.

Arguments LookupResult : clear implicits.
Arguments WatchStream : clear implicits.
Arguments Client : clear implicits.
Arguments Call : clear implicits.
Arguments Event : clear implicits.
Arguments validation : clear implicits.

(** ** Comparing slices without regard to order *)

(** A Go slice: the nil slice, or a slice with its elements.  An empty slice
    that is not nil holds no element and is still not the nil slice. *)
Inductive Slice (T : Type) : Type :=
| nilSlice
| sliceOf (elements : list T).
Arguments nilSlice {T}.
Arguments sliceOf {T} elements.

Definition elems {T} (x : Slice T) : list T :=
  match x with
  | nilSlice => []
  | sliceOf elements => elements
  end.

Definition isNil {T} (x : Slice T) : bool :=
  match x with
  | nilSlice => true
  | sliceOf _ => false
  end.

Section Unordered.
Context {T : Type} `{GoValue T} `{GoValue (Slice T)}.
Variable less : T -> T -> bool.

(** [sort.SliceIsSorted]: no element is less than the one before it. *)
Fixpoint SliceIsSorted (x : list T) : bool :=
  match x with
  | [] => true
  | a :: rest =>
      match rest with
      | [] => true
      | b :: _ => negb (less b a) && SliceIsSorted rest
      end
  end.

(** One step of a stable insertion sort: [a] goes before the first element
    that is not less than it. *)
Fixpoint insertSorted (a : T) (x : list T) : list T :=
  match x with
  | [] => [a]
  | b :: rest => if less b a then b :: insertSorted a rest else a :: b :: rest
  end.

(** [sort.SliceStable] on the elements: elements that [less] does not order
    keep their relative order.  Where [less] is a strict weak order every
    stable sort returns this list. *)
Definition SliceStable (x : list T) : list T := foldr insertSorted [] x.

(** [a] may stand before [b] in a sorted slice: [b] is not less than [a]. *)
Definition notAfter (a b : T) : Prop := less b a = false.



(** [cmp.Equal] on the elements of two slices neither of which is nil: same
    length and [cmp.Equal] elements at every index. *)
Fixpoint elementsEqual (x y : list T) : bool :=
  match x, y with
  | [], [] => true
  | a :: x', b :: y' => cmpEqual a b && elementsEqual x' y'
  | _, _ => false
  end.

(** [cmp.Equal] on two slices with no option that applies: when either is
    nil they are equal iff both are, so a nil slice and an empty slice are
    not equal; otherwise their elements are compared. *)
Definition sliceEqual (x y : Slice T) : bool :=
  if isNil x || isNil y then isNil x && isNil y
  else elementsEqual (elems x) (elems y).

(** The filter of [cmpopts.SortSlices]: the sorting transformer applies
    unless both slices have at most one element or both are sorted already. *)
Definition sortSlicesFilter (x y : list T) : bool :=
  if (length x <=? 1)%nat && (length y <=? 1)%nat then false
  else negb (SliceIsSorted x) || negb (SliceIsSorted y).

(** [sliceSorter.sort]: a fresh slice, never nil, with the elements sorted. *)
Definition sortSlice (x : Slice T) : Slice T := sliceOf (SliceStable (elems x)).


(** [cmp.Equal(x, y, cmpopts.SortSlices(less))], where it returns. *)
Definition cmpEqualSortSlices (x y : Slice T) : bool :=
  if sortSlicesFilter (elems x) (elems y) then sliceEqual (sortSlice x) (sortSlice y)
  else sliceEqual x y.

(** [UnorderedEqual], lines 430-435.  Where [sortSlicesPanics] holds of the
    fetched slice and [want], the predicate panics and the validation
    function does not return. *)
Definition UnorderedEqual (q : Query) (want : Slice T) : validation (Slice T) :=
  Predicate q ("want " +:+ GoString want) (λ got, cmpEqualSortSlices got want).
End Unordered.

(** ** Go's [int] and [[]int] as value types *)

#[export] Instance GoValue_int : GoValue Z := {|
  GoString := pretty;
  DeepEqual := Z.eqb;
  cmpEqual := Z.eqb;
|}.

(** [%#v], [reflect.DeepEqual] and [cmp.Equal] all tell the nil slice from
    an empty one. *)
#[export] Instance Slice_eq_dec {T} `{EqDecision T} : EqDecision (Slice T).
Proof. solve_decision. Defined.

#[export] Instance GoValue_ints : GoValue (Slice Z) := {|
  GoString := λ x,
    match x with
    | nilSlice => "[]int(nil)"
    | sliceOf l => "[]int{" +:+ String.concat ", " (pretty <$> l) +:+ "}"
    end;
  DeepEqual := λ x y, bool_decide (x = y);
  cmpEqual := λ x y, bool_decide (x = y);
|}.


(** ** Sample devices, used to run the definitions *)

Definition samplePath : Query :=
  {| QueryPathStruct :=
       Some {| ResolvePath := Ok {| PathToString := Ok "/system/state/hostname" |} |} |}.

Definition held {T} (v : T) : Value T := {| val := v; present := true |}.
Definition absent {T} (zero : T) : Value T := {| val := zero; present := false |}.

Definition deadlineError : error :=
  statusError DeadlineExceeded "rpc error: code = DeadlineExceeded desc = context deadline exceeded".

(** A validation error about [samplePath]. *)
Definition sampleError (verr cause : option error) : validationErrorOf error :=
  {| query := samplePath; validationErr := verr; failureCause := cause |}.

(** A device that answers a lookup with [first] and a watch with [later],
    ended by the deadline. *)
Definition device {T} (first : Value T) (later : list (Value T)) : Client T :=
  {| lookupReply := λ _, Fetched first;
     watchReply := λ _ _, {| delivered := later; terminal := deadlineError |} |}.

(** A device that cannot be reached. *)
Definition unreachable {T} (err : error) : Client T :=
  {| lookupReply := λ _, FetchFailed err;
     watchReply := λ _ _, {| delivered := []; terminal := err |} |}.

(** ** Reading a log *)

Section Logs.
Context {T : Type}.

(** The queries fetched, the watches opened and the values the validation
    function was applied to, in the order of the log. *)
Definition lookups (log : list (Event T)) : list Query :=
  omap (λ e, match e with EvLookup q => Some q | _ => None end) log.

Definition watches (log : list (Event T)) : list (Context * Query) :=
  omap (λ e, match e with EvWatch ctx q => Some (ctx, q) | _ => None end) log.

Definition validated (log : list (Event T)) : list (Value T) :=
  omap (λ e, match e with EvValidationFn v => Some v | _ => None end) log.

(** The error, if any, of the validation function on a value. *)
Definition verdict (vd : validation T) (v : Value T) : option error :=
  (validationFn vd v).1.

(** The failure [Await] has on record after a run of values: the verdict on
    the last of them, or the one it started with. *)
Definition lastRecorded (vd : validation T) (start : option error)
    (values : list (Value T)) : option error :=
  match last values with
  | Some v => verdict vd v
  | None => start
  end.
End Logs.

(** What a watch logs while [Await]'s callback goes through a run of values. *)
Definition watchLog {T} (vd : validation T) (values : list (Value T))
  : list (Event T) :=
  values ≫= λ v, EvValidationFn v :: (EvCall <$> (validationFn vd v).2).

(** The text of rendering case 2 of [Error], for a path. *)
Definition noValuesMessage (path : string) : string :=
  path +:+ ": deadline exceeded before any values were fetched".

(** ** The forwarding-table checks of the reboot test

    The test file of [afts_reboot_test] reads a snapshot of the device's
    forwarding tables ([aftcache.AFTData]) and checks the prefixes it expects
    in it. *)

(** The entries of [aftcache.AFTData], with the fields the test reads.  The
    maps hold pointers in Go; no nil pointer is stored in them here. *)
Record aftNextHop : Type := { IntfName : string; IP : string }.

Record aftNextHopGroup : Type := {
  NHIDs : list N;          (* []uint64 *)
  NHWeights : gmap N N;    (* map[uint64]uint64 *)
}.

Record AFTData : Type := {
  Prefixes : gmap string N;
  NextHopGroups : gmap N aftNextHopGroup;
  NextHops : gmap N aftNextHop;
}.

(** An [ondatra.DUTDevice], seen through the two deviations the test asks
    for. *)
Record DUTDevice : Type := {
  LowScaleAft : bool;
  SkipInterfaceNameCheck : bool;
}.

Inductive IPFamily : Type := IPv4 | IPv6.

Definition bgpRouteCountIPv4Default : N := 2000000.
Definition bgpRouteCountIPv4LowScale : N := 100000.
Definition bgpRouteCountIPv6Default : N := 1000000.
Definition bgpRouteCountIPv6LowScale : N := 100000.
Definition startingBGPRouteIPv4 : string := "200.0.0.0/32".
Definition startingBGPRouteIPv6 : string := "3001:1::0/128".

(** [routeCount], lines 109-120 of the test file. *)
Definition routeCount (dut : DUTDevice) (afi : IPFamily) : N :=
  if LowScaleAft dut then
    match afi with
    | IPv4 => bgpRouteCountIPv4LowScale
    | IPv6 => bgpRouteCountIPv6LowScale
    end
  else
    match afi with
    | IPv4 => bgpRouteCountIPv4Default
    | IPv6 => bgpRouteCountIPv6Default
    end.

(** How a function left: it returned an error or nil, or it panicked on an
    index out of range. *)
Inductive Outcome : Type :=
| Returned (err : option error)
| Panicked.

Section AFT.
(** [netutil.GenCIDRs(t, ip, count)]: the prefixes the channel yields, in
    order. *)
Variable GenCIDRs : string -> Z -> list string.

(** The inner loop of [verifyPrefixes], lines 449-478, from index [i] on with
    [remaining] turns to go; [Returned None] is the loop running to its end. *)
Fixpoint nextHopLoop (dut : DUTDevice) (aft : AFTData) (pfix : string)
    (nhgID : N) (nhg : aftNextHopGroup) (remaining i : nat) (firstWeight : N)
  : Outcome :=
  match remaining with
  | O => Returned None
  | S remaining' =>
      match NHIDs nhg !! i with
      | None => Panicked
      | Some nhID =>
          match NextHops aft !! nhID with
          | None => Returned (Some (errorString
              ("next hop " +:+ pretty nhID
               +:+ " not found in AFT for next-hop group: " +:+ pretty nhgID
               +:+ " for prefix: " +:+ pfix)))
          | Some nh =>
              if negb (SkipInterfaceNameCheck dut) && bool_decide (IntfName nh = "")
              then Returned (Some (errorString
                ("next hop interface not found in AFT for next-hop: "
                 +:+ pretty nhID +:+ " for prefix: " +:+ pfix)))
              else if bool_decide (IP nh = "")
              then Returned (Some (errorString
                ("next hop IP not found in AFT for next-hop: "
                 +:+ pretty nhID +:+ " for prefix: " +:+ pfix)))
              else
                match NHWeights nhg !! nhID with
                | None => Returned (Some (errorString
                    ("next hop weight not found in AFT for next-hop: "
                     +:+ pretty nhID +:+ " for prefix: " +:+ pfix)))
                | Some weight =>
                    if (weight <=? 0)%N
                    then Returned (Some (errorString
                      ("next hop weight are not proper for next-hop: "
                       +:+ pretty nhID +:+ " for prefix: " +:+ pfix)))
                    else if (firstWeight =? 0)%N
                    then nextHopLoop dut aft pfix nhgID nhg remaining' (S i) weight
                    else if negb (weight =? firstWeight)%N
                    then Returned (Some (errorString
                      ("next hop group " +:+ pretty nhgID
                       +:+ " has unequal weights. Expected " +:+ pretty firstWeight
                       +:+ ", got " +:+ pretty weight +:+ " for next-hop "
                       +:+ pretty nhID +:+ " for prefix " +:+ pfix)))
                    else nextHopLoop dut aft pfix nhgID nhg remaining' (S i)
                           firstWeight
                end
          end
      end
  end.

(** One turn of the outer loop of [verifyPrefixes], lines 435-478. *)
Definition verifyPrefix (dut : DUTDevice) (aft : AFTData) (wantNHCount : Z)
    (pfix : string) : Outcome :=
  match Prefixes aft !! pfix with
  | None => Returned (Some (errorString ("prefix " +:+ pfix +:+ " not found in AFT")))
  | Some nhgID =>
      match NextHopGroups aft !! nhgID with
      | None => Returned (Some (errorString
          ("next hop group " +:+ pretty nhgID
           +:+ " not found in AFT for prefix " +:+ pfix)))
      | Some nhg =>
          if negb (Z.of_nat (length (NHIDs nhg)) =? wantNHCount)%Z
          then Returned (Some (errorString
            ("next hop group " +:+ pretty nhgID +:+ " has "
             +:+ pretty (Z.of_nat (length (NHIDs nhg))) +:+ " next hops, want "
             +:+ pretty wantNHCount)))
          else nextHopLoop dut aft pfix nhgID nhg (Z.to_nat wantNHCount) 0 0%N
      end
  end.

(** The outer loop of [verifyPrefixes] over the prefixes the channel yields. *)
Fixpoint verifyPrefixesLoop (dut : DUTDevice) (aft : AFTData) (wantNHCount : Z)
    (prefixes : list string) : Outcome :=
  match prefixes with
  | [] => Returned None
  | pfix :: rest =>
      match verifyPrefix dut aft wantNHCount pfix with
      | Returned None => verifyPrefixesLoop dut aft wantNHCount rest
      | r => r
      end
  end.

(** [verifyPrefixes], lines 433-481. *)
Definition verifyPrefixes (dut : DUTDevice) (aft : AFTData) (ip : string)
    (routeCount : Z) (wantNHCount : Z) : Outcome :=
  verifyPrefixesLoop dut aft wantNHCount (GenCIDRs ip routeCount).

(** [generateWantPrefixes], lines 422-431. *)
Definition generateWantPrefixes (dut : DUTDevice) : gmap string bool :=
  let wantPrefixes : gmap string bool := ∅ in
  let wantPrefixes :=
    foldl (λ m pfix, <[pfix := true]> m) wantPrefixes
      (GenCIDRs startingBGPRouteIPv4 (Z.of_N (routeCount dut IPv4))) in
  foldl (λ m pfix6, <[pfix6 := true]> m) wantPrefixes
    (GenCIDRs startingBGPRouteIPv6 (Z.of_N (routeCount dut IPv6))).
End AFT.

(** What [verifyPrefixes] asks of a next hop of a group, for the weight [w]
    the group's next hops share. *)
Definition nextHopWellFormed (dut : DUTDevice) (aft : AFTData)
    (nhg : aftNextHopGroup) (w : N) (nhID : N) : Prop :=
  ∃ nh, NextHops aft !! nhID = Some nh
        ∧ (SkipInterfaceNameCheck dut = false → IntfName nh ≠ "")
        ∧ IP nh ≠ ""
        ∧ NHWeights nhg !! nhID = Some w.

(** What [verifyPrefixes] asks of a prefix. *)
Definition prefixWellFormed (dut : DUTDevice) (aft : AFTData) (wantNHCount : Z)
    (pfix : string) : Prop :=
  ∃ nhgID nhg w,
    Prefixes aft !! pfix = Some nhgID
    ∧ NextHopGroups aft !! nhgID = Some nhg
    ∧ Z.of_nat (length (NHIDs nhg)) = wantNHCount
    ∧ w ≠ 0%N
    ∧ Forall (nextHopWellFormed dut aft nhg w) (NHIDs nhg).

(** A forwarding table with one prefix over two next hops of weight 1, and
    a source of prefixes that yields the starting prefix and one more. *)
Definition sampleAFT : AFTData :=
  {| Prefixes := {[ "200.0.0.0/32" := 7%N ]};
     NextHopGroups :=
       {[ 7%N := {| NHIDs := [1%N; 2%N];
                    NHWeights := {[ 1%N := 1%N; 2%N := 1%N ]} |} ]};
     NextHops :=
       {[ 1%N := {| IntfName := "eth1"; IP := "192.0.2.2" |};
          2%N := {| IntfName := "eth2"; IP := "192.0.2.6" |} ]} |}.

Definition sampleDUT : DUTDevice :=
  {| LowScaleAft := true; SkipInterfaceNameCheck := false |}.

Definition sampleCIDRs (ip : string) (count : Z) : list string :=
  if (0 <? count)%Z then [ip; "203.0.113.0/32"] else [].

(** * Properties *)

Ltac run_logged :=
  unfold mbind, mret, Logged_bind, Logged_ret, tell, relabel in *; simpl in *.

Section CoreFacts.
Context {T : Type}.
Implicit Types (vd : validation T) (client : Client T) (v : Value T).

Lemma lookups_app (l1 l2 : list (Event T)) :
  lookups (l1 ++ l2) = lookups l1 ++ lookups l2.
Proof. apply omap_app. Qed.

Lemma watches_app (l1 l2 : list (Event T)) :
  watches (l1 ++ l2) = watches l1 ++ watches l2.
Proof. apply omap_app. Qed.

Lemma validated_app (l1 l2 : list (Event T)) :
  validated (l1 ++ l2) = validated l1 ++ validated l2.
Proof. apply omap_app. Qed.

Lemma watches_cons (e : Event T) l : watches (e :: l) = watches [e] ++ watches l.
Proof. apply (watches_app [e]). Qed.

Lemma validated_cons (e : Event T) l :
  validated (e :: l) = validated [e] ++ validated l.
Proof. apply (validated_app [e]). Qed.

(** Calls made inside a validation function are neither fetches, nor
    watches, nor applications of the validation function. *)
Lemma calls_silent (cs : list (Call T)) :
  lookups (EvCall <$> cs) = [] ∧ watches (EvCall <$> cs) = []
  ∧ validated (EvCall <$> cs) = [].
Proof. induction cs as [|c cs IH]; [done|]. destruct IH as (?&?&?). done. Qed.

(** [Check] when the fetch fails. *)
Lemma Check_fetch_failed vd client err :
  lookupReply client (vquery vd) = FetchFailed err →
  Check vd client =
    (Some (validationError
       {| query := vquery vd; validationErr := None; failureCause := Some err |}),
     [EvLookup (vquery vd)]).
Proof. intros Hl. unfold Check, Lookup. run_logged. by rewrite Hl. Qed.

(** [Check] when the fetch succeeds. *)
Lemma Check_fetched vd client v :
  lookupReply client (vquery vd) = Fetched v →
  Check vd client =
    (match verdict vd v with
     | Some err => Some (validationError
         {| query := vquery vd; validationErr := Some err; failureCause := None |})
     | None => None
     end,
     EvLookup (vquery vd) :: EvValidationFn v :: (EvCall <$> (validationFn vd v).2)).
Proof.
  intros Hl. unfold Check, Lookup, callValidationFn, verdict. run_logged.
  rewrite Hl. simpl. destruct (validationFn vd v) as [[e|] cs]; simpl;
    by rewrite app_nil_r.
Qed.

Lemma Check_lookups vd client :
  lookups (Check vd client).2 = [vquery vd].
Proof.
  destruct (lookupReply client (vquery vd)) as [v|err] eqn:Hl.
  - rewrite (Check_fetched _ _ _ Hl). simpl.
    by rewrite (proj1 (calls_silent _)).
  - by rewrite (Check_fetch_failed _ _ _ Hl).
Qed.

Lemma Check_watches vd client :
  watches (Check vd client).2 = [].
Proof.
  destruct (lookupReply client (vquery vd)) as [v|err] eqn:Hl.
  - rewrite (Check_fetched _ _ _ Hl). simpl.
    by rewrite (proj1 (proj2 (calls_silent _))).
  - by rewrite (Check_fetch_failed _ _ _ Hl).
Qed.

(** Every error of [Check] is a [validationError] with exactly one cause. *)
Lemma Check_error_shape vd client e :
  (Check vd client).1 = Some e →
  (∃ err, lookupReply client (vquery vd) = FetchFailed err ∧
     e = validationError
       {| query := vquery vd; validationErr := None; failureCause := Some err |})
  ∨ (∃ v verr, lookupReply client (vquery vd) = Fetched v ∧
       verdict vd v = Some verr ∧
       e = validationError
         {| query := vquery vd; validationErr := Some verr; failureCause := None |}).
Proof.
  destruct (lookupReply client (vquery vd)) as [v|err] eqn:Hl.
  - rewrite (Check_fetched _ _ _ Hl). simpl.
    destruct (verdict vd v) as [verr|] eqn:Hv; [|done].
    intros [= <-]. right. by exists v, verr.
  - rewrite (Check_fetch_failed _ _ _ Hl). simpl.
    intros [= <-]. left. by exists err.
Qed.
End CoreFacts.

(** C2.  [Check] fetches exactly once.  When the fetch fails its result is a
    [validationError] with only [failureCause] set and the validation
    function is not applied to anything; when the fetch succeeds the
    validation function is applied to the fetched value once, and [Check]
    returns a [validationError] with only [validationErr] set if that fails
    and nil if it passes.  So no error of [Check] has both causes set. *)
Theorem Check_one_fetch_one_cause {T} (vd : validation T) (client : Client T) :
  lookups (Check vd client).2 = [vquery vd]
  ∧ (∀ err, lookupReply client (vquery vd) = FetchFailed err →
       (Check vd client).1 = Some (validationError
         {| query := vquery vd; validationErr := None; failureCause := Some err |})
       ∧ validated (Check vd client).2 = []
       ∧ (Check vd client).2 = [EvLookup (vquery vd)])
  ∧ (∀ v, lookupReply client (vquery vd) = Fetched v →
       validated (Check vd client).2 = [v]
       ∧ (∀ verr, verdict vd v = Some verr →
            (Check vd client).1 = Some (validationError
              {| query := vquery vd; validationErr := Some verr;
                 failureCause := None |}))
       ∧ (verdict vd v = None → (Check vd client).1 = None))
  ∧ (∀ e, (Check vd client).1 = Some e →
       ∃ f, e = validationError f
            ∧ ¬ (validationErr f ≠ None ∧ failureCause f ≠ None)
            ∧ (validationErr f ≠ None ∨ failureCause f ≠ None)).
Proof.
  split; [apply Check_lookups|]. split; [|split].
  - intros err Hl. by rewrite (Check_fetch_failed _ _ _ Hl).
  - intros v Hl. rewrite (Check_fetched _ _ _ Hl). simpl.
    rewrite (proj2 (proj2 (calls_silent _))). split; [done|].
    split; [intros verr ->; done | intros ->; done].
  - intros e He. destruct (Check_error_shape _ _ _ He)
      as [(err & _ & ->)|(v & verr & _ & _ & ->)]; eexists; (split; [done|]);
      simpl; split; [intros [? ?]|right| intros [? ?]|left]; done.
Qed.

Section AwaitFacts.
Context {T : Type}.
Implicit Types (vd : validation T) (client : Client T) (v : Value T).

Lemma watchLog_cons vd v values :
  watchLog vd (v :: values) =
    (EvValidationFn v :: (EvCall <$> (validationFn vd v).2)) ++ watchLog vd values.
Proof. done. Qed.

Lemma watchLog_silent vd values :
  lookups (watchLog vd values) = [] ∧ watches (watchLog vd values) = []
  ∧ validated (watchLog vd values) = values.
Proof.
  induction values as [|v values (IH1 & IH2 & IH3)]; [done|].
  rewrite watchLog_cons, lookups_app, watches_app, validated_app, IH1, IH2, IH3.
  simpl. destruct (calls_silent (validationFn vd v).2) as (-> & -> & ->). done.
Qed.

Lemma watchLog_app vd l1 l2 :
  watchLog vd (l1 ++ l2) = watchLog vd l1 ++ watchLog vd l2.
Proof. unfold watchLog. apply bind_app. Qed.

Lemma lastRecorded_cons vd start v values :
  lastRecorded vd start (v :: values) = lastRecorded vd (verdict vd v) values.
Proof.
  unfold lastRecorded. rewrite last_cons. by destruct (last values).
Qed.

Lemma watchLoop_cons {S} (pred : Value T → S → Logged (Event T) (option error * S))
    v rest term s :
  watchLoop pred (v :: rest) term s =
    (let r := pred v s in
     match r.1 with
     | (None, s') => (None, s', r.2 ++ [])
     | (Some err, s') =>
         if Is_Continue err
         then let w := watchLoop pred rest term s' in (w.1, r.2 ++ w.2)
         else (Some err, s', r.2 ++ [])
     end).
Proof.
  simpl. unfold mbind, Logged_bind. destruct (pred v s) as [[[err|] s'] log];
    simpl; [destruct (Is_Continue err)|]; done.
Qed.

(** One turn of the callback. *)
Lemma awaitPred_run vd v s :
  awaitPred vd v s =
    (match verdict vd v with
     | Some err => (Some Continue, Some err)
     | None => (None, None)
     end,
     EvValidationFn v :: (EvCall <$> (validationFn vd v).2)).
Proof.
  unfold awaitPred, callValidationFn, verdict. run_logged.
  destruct (validationFn vd v) as [[e|] cs]; simpl; by rewrite app_nil_r.
Qed.

(** The watch when every delivered value fails validation: it ends with
    the terminal error, and the failure on record is that of the last value. *)
Lemma watchLoop_all_fail vd values term s :
  Forall (λ u, verdict vd u ≠ None) values →
  watchLoop (awaitPred vd) values term s =
    ((Some term, lastRecorded vd s values), watchLog vd values).
Proof.
  revert s. induction values as [|v values IH]; intros s Hall; [done|].
  inversion Hall as [|? ? Hv Hrest]; subst.
  rewrite watchLoop_cons, awaitPred_run.
  destruct (verdict vd v) as [err|] eqn:Ev; [|done].
  cbn. rewrite (IH (Some err) Hrest). cbn.
  rewrite lastRecorded_cons, Ev. done.
Qed.

(** The watch when a delivered value passes: it ends with success at the
    first such value, and later values are not looked at. *)
Lemma watchLoop_first_pass vd pre v post term s :
  Forall (λ u, verdict vd u ≠ None) pre →
  verdict vd v = None →
  watchLoop (awaitPred vd) (pre ++ v :: post) term s =
    ((None, None), watchLog vd (pre ++ [v])).
Proof.
  revert s. induction pre as [|u pre IH]; intros s Hall Hv.
  - rewrite app_nil_l, watchLoop_cons, awaitPred_run, Hv. cbn.
    by rewrite !app_nil_r.
  - inversion Hall as [|? ? Hu Hrest]; subst.
    rewrite <- app_comm_cons, watchLoop_cons, awaitPred_run.
    destruct (verdict vd u) as [err|] eqn:Eu; [|done].
    cbn. rewrite (IH (Some err) Hrest Hv). done.
Qed.

(** The callback opens no further watch. *)
Lemma watchLoop_awaitPred_watches vd values term s :
  watches (watchLoop (awaitPred vd) values term s).2 = [].
Proof.
  revert s. induction values as [|u values IH]; intros s; [done|].
  rewrite watchLoop_cons, awaitPred_run.
  destruct (verdict vd u); cbn [fst snd Is_Continue];
    rewrite ?watches_app, watches_cons, ?IH;
    by rewrite (proj1 (proj2 (calls_silent _))).
Qed.

(** While the watch goes on, the failure on record stays set: a watch that
    ends with an error has a failure on record if it started with one. *)
Lemma watchLoop_keeps_failure vd values term s :
  s ≠ None →
  ∀ werr, (watchLoop (awaitPred vd) values term s).1.1 = Some werr →
  (watchLoop (awaitPred vd) values term s).1.2 ≠ None.
Proof.
  revert s. induction values as [|u values IH]; intros s Hs werr; [done|].
  rewrite watchLoop_cons, awaitPred_run.
  destruct (verdict vd u) as [uerr|]; cbn [fst snd Is_Continue]; [|done].
  by apply IH.
Qed.

(** [Await] when [Check] passes or could not fetch. *)
Lemma Await_no_watch vd ctx client :
  (Check vd client).1 = None
  ∨ (∃ f, (Check vd client).1 = Some (validationError f) ∧ failureCause f ≠ None) →
  Await vd ctx client = Check vd client.
Proof.
  unfold Await. destruct (Check vd client) as [[e|] log]; cbn.
  - intros [?|(f & [= ->] & Hf)]; [done|]. cbn.
    destruct (failureCause f); [|done]. cbn. by rewrite app_nil_r.
  - intros _. by rewrite app_nil_r.
Qed.

(** [Await] when [Check] fetched a value that failed validation. *)
Lemma Await_watch vd ctx client f :
  (Check vd client).1 = Some (validationError f) →
  failureCause f = None →
  let stream := watchReply client ctx (vquery vd) in
  let w := watchLoop (awaitPred vd) (delivered stream) (terminal stream)
             (validationErr f) in
  Await vd ctx client =
    (match w.1.1 with
     | Some err => Some (validationError
         {| query := vquery vd; validationErr := w.1.2; failureCause := Some err |})
     | None => None
     end,
     (Check vd client).2 ++ EvWatch ctx (vquery vd) :: w.2).
Proof.
  intros Hc Hf stream w. unfold Await, Watch.
  destruct (Check vd client) as [r log]. cbn in Hc. subst r. cbn.
  rewrite Hf. fold stream. fold w.
  destruct w as [[[err|] li] wlog]; cbn; rewrite ?app_nil_r;
    [destruct li|]; done.
Qed.
End AwaitFacts.

(** C1.  [Await] starts with [Check].  If [Check] returns nil, or an error
    whose [failureCause] is set, [Await] returns what [Check] returned and
    opens no watch.  Otherwise it opens one watch on the validator's query
    and applies the validation function to the delivered values in turn: at
    the first value that passes it returns nil; if the stream ends before any
    value passes it returns a [validationError] whose [failureCause] is the
    stream's terminal error and whose [validationErr] is the failure recorded
    last. *)
Theorem Await_check_then_watch {T} (vd : validation T) (ctx : Context)
    (client : Client T) :
  (Check vd client).2 `prefix_of` (Await vd ctx client).2
  ∧ (∀ e, (Check vd client).1 = Some e → ∃ f, e = validationError f)
  ∧ ((Check vd client).1 = None →
       Await vd ctx client = Check vd client
       ∧ watches (Await vd ctx client).2 = [])
  ∧ (∀ f, (Check vd client).1 = Some (validationError f) →
       failureCause f ≠ None →
       Await vd ctx client = Check vd client
       ∧ watches (Await vd ctx client).2 = [])
  ∧ (∀ f, (Check vd client).1 = Some (validationError f) →
       failureCause f = None →
       let stream := watchReply client ctx (vquery vd) in
       watches (Await vd ctx client).2 = [(ctx, vquery vd)]
       ∧ (∀ pre v post,
            delivered stream = pre ++ v :: post →
            Forall (λ u, verdict vd u ≠ None) pre →
            verdict vd v = None →
            (Await vd ctx client).1 = None
            ∧ validated (Await vd ctx client).2
              = validated (Check vd client).2 ++ pre ++ [v])
       ∧ (Forall (λ u, verdict vd u ≠ None) (delivered stream) →
            (Await vd ctx client).1 = Some (validationError
              {| query := vquery vd;
                 validationErr :=
                   lastRecorded vd (validationErr f) (delivered stream);
                 failureCause := Some (terminal stream) |})
            ∧ validated (Await vd ctx client).2
              = validated (Check vd client).2 ++ delivered stream)).
Proof.
  split; [|split; [|split; [|split]]].
  - destruct (Check vd client).1 as [e|] eqn:He.
    + destruct (Check_error_shape _ _ _ He)
        as [(err & _ & ->)|(v & verr & _ & _ & ->)].
      * rewrite Await_no_watch; [done|]. right. eexists. by split.
      * rewrite (Await_watch vd ctx client _ He eq_refl). by eexists.
    + rewrite Await_no_watch; [done|]. by left.
  - intros e He. destruct (Check_error_shape _ _ _ He)
      as [(err & _ & ->)|(v & verr & _ & _ & ->)]; by eexists.
  - intros Hc. rewrite Await_no_watch by (by left).
    split; [done | apply Check_watches].
  - intros f Hc Hf. rewrite Await_no_watch by (right; by exists f).
    split; [done | apply Check_watches].
  - intros f Hc Hf stream.
    pose proof (Await_watch vd ctx client f Hc Hf) as HA. cbv zeta in HA.
    fold stream in HA. split; [|split].
    + rewrite HA. cbn [fst snd].
      rewrite watches_app, Check_watches, watches_cons.
      by rewrite watchLoop_awaitPred_watches.
    + intros pre v post Hd Hpre Hv. rewrite HA, Hd.
      rewrite (watchLoop_first_pass vd pre v post _ _ Hpre Hv). cbn [fst snd].
      split; [done|]. rewrite validated_app, validated_cons.
      by rewrite (proj2 (proj2 (watchLog_silent vd _))).
    + intros Hall. rewrite HA.
      rewrite (watchLoop_all_fail vd _ _ _ Hall). cbn [fst snd].
      split; [done|]. rewrite validated_app, validated_cons.
      by rewrite (proj2 (proj2 (watchLog_silent vd _))).
Qed.

(** ** Bounded waits that degenerate to a check *)

Section Deadlines.
Context {T : Type}.
Implicit Types (vd : validation T) (client : Client T).

(** No result of [Await]'s watch phase is an error without [failureCause]. *)
Lemma Await_watch_result vd ctx client f :
  (Check vd client).1 = Some (validationError f) →
  failureCause f = None →
  (Await vd ctx client).1 = None
  ∨ ∃ g, (Await vd ctx client).1 = Some (validationError g)
         ∧ failureCause g ≠ None.
Proof.
  intros Hc Hf. rewrite (Await_watch vd ctx client f Hc Hf). cbn [fst snd].
  destruct (watchLoop _ _ _ _) as [[[err|] li] wlog]; cbn [fst snd];
    [right | by left].
  eexists. split; [done|]. done.
Qed.
End Deadlines.

(** With a deadline that is not in the past, and so also with one equal to
    now, [AwaitUntil] never returns what [Check] returns on a value that
    fails validation. *)
Lemma AwaitUntil_not_past_differs {T} (now : Time) (vd : validation T)
    (deadline : Time) (client : Client T) (f : validationErrorOf error) :
  (now ≤ deadline)%Z →
  (Check vd client).1 = Some (validationError f) →
  failureCause f = None →
  (AwaitUntil now vd deadline client).1 ≠ (Check vd client).1.
Proof.
  intros Ht Hc Hf. unfold AwaitUntil.
  rewrite (proj2 (Z.ltb_ge deadline now) Ht).
  destruct (Await_watch_result vd (WithDeadline Background deadline)
              client f Hc Hf) as [HA|(g & HA & Hg)]; rewrite HA, Hc.
  - done.
  - intros [= ->]. done.
Qed.

(** C4.  [AwaitFor] with a timeout that is zero or negative is [Check]: same
    result and same calls.  With a positive timeout it is [Await] under a
    context whose deadline is the timeout from now. *)
Theorem AwaitFor_nonpositive_is_Check {T} (now : Time) (vd : validation T)
    (timeout : Duration) (client : Client T) :
  ((timeout ≤ 0)%Z → AwaitFor now vd timeout client = Check vd client)
  ∧ ((0 < timeout)%Z →
       ∃ ctx, Deadline ctx = Some (now + timeout)%Z
              ∧ AwaitFor now vd timeout client = Await vd ctx client).
Proof.
  unfold AwaitFor. split; intros Ht.
  - by rewrite (proj2 (Z.leb_le timeout 0) Ht).
  - rewrite (proj2 (Z.leb_gt timeout 0) Ht).
    by exists (WithTimeout now Background timeout).
Qed.

Lemma AwaitFor_nonpositive_is_Check_witness :
  AwaitFor 100%Z (Equal samplePath 5%Z) (-3)%Z (device (held 4%Z) [held 5%Z])
    = Check (Equal samplePath 5%Z) (device (held 4%Z) [held 5%Z])
  ∧ ∃ ctx, Deadline ctx = Some 107%Z
      ∧ AwaitFor 100%Z (Equal samplePath 5%Z) 7%Z (device (held 4%Z) [held 5%Z])
        = Await (Equal samplePath 5%Z) ctx (device (held 4%Z) [held 5%Z]).
Proof.
  split.
  - apply (proj1 (AwaitFor_nonpositive_is_Check 100%Z (Equal samplePath 5%Z) (-3)%Z
                    (device (held 4%Z) [held 5%Z]))). lia.
  - apply (proj2 (AwaitFor_nonpositive_is_Check 100%Z (Equal samplePath 5%Z) 7%Z
                    (device (held 4%Z) [held 5%Z]))). lia.
Defined.

(** C3, as the code has it.  [AwaitUntil] with a deadline strictly before now
    is [Check]: same result and same calls.  With a deadline at or after now
    (so also at exactly now) it is [Await] under a context with that
    deadline. *)
Theorem AwaitUntil_past_is_Check {T} (now : Time) (vd : validation T)
    (deadline : Time) (client : Client T) :
  ((deadline < now)%Z → AwaitUntil now vd deadline client = Check vd client)
  ∧ ((now ≤ deadline)%Z →
       ∃ ctx, Deadline ctx = Some deadline
              ∧ AwaitUntil now vd deadline client = Await vd ctx client).
Proof.
  unfold AwaitUntil. split; intros Ht.
  - by rewrite (proj2 (Z.ltb_lt deadline now) Ht).
  - rewrite (proj2 (Z.ltb_ge deadline now) Ht).
    by exists (WithDeadline Background deadline).
Qed.

Lemma AwaitUntil_past_is_Check_witness :
  AwaitUntil 100%Z (Equal samplePath 5%Z) 99%Z (device (held 4%Z) [held 5%Z])
    = Check (Equal samplePath 5%Z) (device (held 4%Z) [held 5%Z])
  ∧ ∃ ctx, Deadline ctx = Some 100%Z
      ∧ AwaitUntil 100%Z (Equal samplePath 5%Z) 100%Z (device (held 4%Z) [held 5%Z])
        = Await (Equal samplePath 5%Z) ctx (device (held 4%Z) [held 5%Z]).
Proof.
  split.
  - apply (proj1 (AwaitUntil_past_is_Check 100%Z (Equal samplePath 5%Z) 99%Z
                    (device (held 4%Z) [held 5%Z]))). lia.
  - apply (proj2 (AwaitUntil_past_is_Check 100%Z (Equal samplePath 5%Z) 100%Z
                    (device (held 4%Z) [held 5%Z]))). lia.
Defined.

(** C3, as stated, fails at a deadline equal to now: the device holds 4, the
    validator wants 5, and the watch opened under the expired context ends
    with the deadline before delivering anything.  [Check] reports the
    validation failure alone; [AwaitUntil] reports it under a deadline
    [failureCause]. *)
Lemma AwaitUntil_at_now_is_not_Check :
  (100 ≤ 100)%Z
  ∧ (Check (Equal samplePath 5%Z) (device (held 4%Z) [])).1
    = Some (validationError
        {| query := samplePath;
           validationErr := Some (errorString "got 4, want 5");
           failureCause := None |})
  ∧ (AwaitUntil 100%Z (Equal samplePath 5%Z) 100%Z (device (held 4%Z) [])).1
    = Some (validationError
        {| query := samplePath;
           validationErr := Some (errorString "got 4, want 5");
           failureCause := Some deadlineError |})
  ∧ AwaitUntil 100%Z (Equal samplePath 5%Z) 100%Z (device (held 4%Z) [])
    ≠ Check (Equal samplePath 5%Z) (device (held 4%Z) []).
Proof.
  split; [lia|]. split; [reflexivity|]. split; [reflexivity|].
  intros Heq. apply (f_equal fst) in Heq. vm_compute in Heq. discriminate Heq.
Qed.

(** ** Rendering a validation error *)

(** C5.  The message of a [validationError], by priority: a timeout cause
    with a validation error; a timeout cause without one; any other cause;
    a validation error alone; neither. *)
Theorem Error_priority (f : validationErrorOf error) :
  let path := FormatPath (QueryPathStruct (query f)) in
  (isTimeout (failureCause f) = true →
     ∀ verr, validationErr f = Some verr →
       Error (validationError f)
       = path +:+ ": " +:+ Error verr +:+ " (deadline exceeded)")
  ∧ (isTimeout (failureCause f) = true →
       validationErr f = None →
       Error (validationError f)
       = path +:+ ": deadline exceeded before any values were fetched")
  ∧ (isTimeout (failureCause f) = false →
       ∀ cause, failureCause f = Some cause →
         Error (validationError f) = path +:+ ": " +:+ Error cause)
  ∧ (failureCause f = None →
       ∀ verr, validationErr f = Some verr →
         Error (validationError f) = path +:+ ": " +:+ Error verr)
  ∧ (failureCause f = None →
       validationErr f = None →
       Error (validationError f) = path +:+ ": unknown error").
Proof.
  intros path. subst path. cbn [Error]. unfold qStr.
  repeat split.
  - intros -> verr ->. done.
  - intros -> ->. done.
  - intros -> cause ->. done.
  - intros -> verr ->. done.
  - intros -> ->. done.
Qed.

Lemma Error_priority_witness :
  Error (validationError
    {| query := samplePath;
       validationErr := Some (errorString "got 4, want 5");
       failureCause := Some deadlineError |})
  = "/system/state/hostname: got 4, want 5 (deadline exceeded)"
  ∧ Error (validationError
      {| query := samplePath; validationErr := None;
         failureCause := Some deadlineError |})
    = "/system/state/hostname: deadline exceeded before any values were fetched"
  ∧ Error (validationError
      {| query := samplePath;
         validationErr := Some (errorString "got 4, want 5");
         failureCause := Some (errorString "connection refused") |})
    = "/system/state/hostname: connection refused"
  ∧ Error (validationError
      {| query := samplePath;
         validationErr := Some (errorString "got 4, want 5");
         failureCause := None |})
    = "/system/state/hostname: got 4, want 5"
  ∧ Error (validationError
      {| query := samplePath; validationErr := None; failureCause := None |})
    = "/system/state/hostname: unknown error".
Proof.
  split; [|split; [|split; [|split]]].
  - exact (proj1 (Error_priority
      (sampleError (Some (errorString "got 4, want 5")) (Some deadlineError)))
      eq_refl _ eq_refl).
  - exact (proj1 (proj2 (Error_priority (sampleError None (Some deadlineError))))
      eq_refl eq_refl).
  - exact (proj1 (proj2 (proj2 (Error_priority
      (sampleError (Some (errorString "got 4, want 5"))
         (Some (errorString "connection refused"))))))
      eq_refl _ eq_refl).
  - exact (proj1 (proj2 (proj2 (proj2 (Error_priority
      (sampleError (Some (errorString "got 4, want 5")) None)))))
      eq_refl _ eq_refl).
  - exact (proj2 (proj2 (proj2 (proj2 (Error_priority (sampleError None None)))))
      eq_refl eq_refl).
Defined.

(** ** The factories *)

Section Factories.
Context {T : Type} `{GoValue T}.
Implicit Types (q : Query) (v : Value T) (client : Client T).

(** The validation function of [Predicate], case by case. *)
Lemma Predicate_run q wantMsg (predicate : T → bool) v :
  validationFn (Predicate q wantMsg predicate) v =
    if negb (present v) then
      (Some (errorString ("got " +:+ FormatValue (Some v) +:+ ", " +:+ wantMsg)), [])
    else if predicate (val v) then (None, [CallPredicate (val v)])
    else (Some (errorString ("got " +:+ FormatValue (Some v) +:+ ", " +:+ wantMsg)),
          [CallPredicate (val v)]).
Proof.
  destruct v as [x [|]]; cbn; [destruct (predicate x)|]; done.
Qed.

(** [Check] passes exactly when the fetched value passes validation. *)
Lemma Check_verdict (vd : validation T) client v :
  lookupReply client (vquery vd) = Fetched v →
  ((Check vd client).1 = None ↔ verdict vd v = None).
Proof.
  intros Hl. rewrite (Check_fetched _ _ _ Hl). cbn [fst].
  by destruct (verdict vd v).
Qed.
End Factories.

(** C6.  A validator built by [Predicate] fails on every absent value with
    the error "got <FormatValue(value)>, <wantMsg>", and its log of predicate
    calls is then empty: the predicate is not invoked.  On a held value the
    predicate is invoked once, on that value.  So [NotEqual(q, wantNot).Check]
    fails when the fetched value is absent, fails when it is held and
    deep-equal to [wantNot], and passes otherwise. *)
Theorem Predicate_requires_presence {T} `{GoValue T} (q : Query) :
  (∀ (wantMsg : string) (predicate : T → bool) (v : Value T),
     (present v = false →
        validationFn (Predicate q wantMsg predicate) v =
          (Some (errorString
             ("got " +:+ FormatValue (Some v) +:+ ", " +:+ wantMsg)), []))
     ∧ (present v = true →
          (validationFn (Predicate q wantMsg predicate) v).2
            = [CallPredicate (val v)]))
  ∧ (∀ (wantNot : T) (client : Client T) (v : Value T),
       lookupReply client q = Fetched v →
       (present v = false → (Check (NotEqual q wantNot) client).1 ≠ None)
       ∧ (present v = true → DeepEqual (val v) wantNot = true →
            (Check (NotEqual q wantNot) client).1 ≠ None)
       ∧ (present v = true → DeepEqual (val v) wantNot = false →
            (Check (NotEqual q wantNot) client).1 = None)).
Proof.
  split.
  - intros wantMsg predicate v. rewrite Predicate_run. split; intros ->; cbn.
    + done.
    + by destruct (predicate (val v)).
  - intros wantNot client v Hl.
    pose proof (Check_verdict (NotEqual q wantNot) client v Hl) as Hc.
    unfold verdict, NotEqual in Hc. rewrite Predicate_run in Hc.
    split; [|split].
    + intros Hp. rewrite Hp in Hc. cbn in Hc. intros Hn. by apply Hc in Hn.
    + intros Hp Hd. rewrite Hp, Hd in Hc. cbn in Hc. intros Hn. by apply Hc in Hn.
    + intros Hp Hd. rewrite Hp, Hd in Hc. cbn in Hc. by apply Hc.
Qed.

(** C7.  The validation function of [EqualOrNil(query, want)] passes on every
    absent value and on every held value deep-equal to [want]; it fails
    exactly when the value is held and not deep-equal to [want], with the
    error "got <value>, want <want> or no value". *)
Theorem EqualOrNil_absent_or_equal {T} `{GoValue T} (q : Query) (want : T)
    (v : Value T) :
  (present v = false → verdict (EqualOrNil q want) v = None)
  ∧ (present v = true → DeepEqual (val v) want = true →
       verdict (EqualOrNil q want) v = None)
  ∧ (present v = true → DeepEqual (val v) want = false →
       verdict (EqualOrNil q want) v
       = Some (errorString
           ("got " +:+ GoString (val v) +:+ ", want " +:+ GoString want
            +:+ " or no value"))
       ∧ FormatValue (Some v) = GoString (val v))
  ∧ (verdict (EqualOrNil q want) v ≠ None
     ↔ present v = true ∧ DeepEqual (val v) want = false).
Proof.
  destruct v as [x p]. unfold verdict. cbn.
  destruct p, (DeepEqual x want); cbn; intuition congruence.
Qed.

(** C8.  On every fetched value, held or absent, exactly one of [Present] and
    [NotPresent] passes: [Present] passes iff the value is held, whatever it
    holds, and [NotPresent] passes iff it is absent. *)
Theorem Present_NotPresent_partition {T} `{GoValue T} (q : Query) (v : Value T) :
  (verdict (Present q) v = None ↔ present v = true)
  ∧ (verdict (NotPresent q) v = None ↔ present v = false)
  ∧ ((verdict (Present q) v = None ∧ verdict (NotPresent q) v ≠ None)
     ∨ (verdict (Present q) v ≠ None ∧ verdict (NotPresent q) v = None)).
Proof.
  destruct v as [x [|]]; unfold verdict; cbn.
  - split; [done|]. split; [done|]. left. done.
  - split; [done|]. split; [done|]. right. done.
Qed.

(** ** Order-insensitive equality of slices *)

Section UnorderedFacts.
Context {T : Type} `{GoValue T}.
Variable less : T → T → bool.
Implicit Types (a b : T) (l k : list T) (x y : Slice T).

(** Sorting leaves a slice that [sort.SliceIsSorted] accepts as it is. *)
Lemma SliceStable_sorted_id l :
  SliceIsSorted less l = true → SliceStable less l = l.
Proof.
  induction l as [|a l IH]; [done|]. intros Hs.
  change (SliceStable less (a :: l)) with (insertSorted less a (SliceStable less l)).
  destruct l as [|b l]; [done|].
  cbn [SliceIsSorted] in Hs. apply andb_prop in Hs as [Hab Hrest].
  rewrite (IH Hrest). cbn [insertSorted].
  apply negb_true_iff in Hab. by rewrite Hab.
Qed.

Lemma SliceStable_short l : (length l ≤ 1)%nat → SliceStable less l = l.
Proof. destruct l as [|a [|b l]]; cbn; [done..|lia]. Qed.

Lemma insertSorted_Permutation a l : insertSorted less a l ≡ₚ a :: l.
Proof.
  induction l as [|b l IH]; [done|]. cbn [insertSorted].
  destruct (less b a); [|done]. rewrite IH. apply Permutation_swap.
Qed.

(** Sorting rearranges, and so keeps the length. *)
Lemma SliceStable_Permutation l : SliceStable less l ≡ₚ l.
Proof.
  induction l as [|a l IH]; [done|].
  change (SliceStable less (a :: l)) with (insertSorted less a (SliceStable less l)).
  by rewrite insertSorted_Permutation, IH.
Qed.

Lemma SliceStable_length l : length (SliceStable less l) = length l.
Proof. apply Permutation_length, SliceStable_Permutation. Qed.

Lemma elementsEqual_length l k : elementsEqual l k = true → length l = length k.
Proof.
  revert k. induction l as [|a l IH]; intros [|b k]; cbn; try done.
  intros [_ Hr]%andb_prop. f_equal. by apply IH.
Qed.

(** Whether or not the transformer applies, [cmp.Equal] with [SortSlices]
    tells a nil slice from one that is not and compares the sorted elements. *)
Lemma cmpEqualSortSlices_sorted x y :
  cmpEqualSortSlices less x y
  = bool_decide (isNil x = isNil y)
    && elementsEqual (SliceStable less (elems x)) (SliceStable less (elems y)).
Proof.
  unfold cmpEqualSortSlices.
  destruct (sortSlicesFilter less (elems x) (elems y)) eqn:Hf.
  - (* the transformer applies: one slice has two elements or more *)
    unfold sliceEqual, sortSlice. cbn [isNil elems orb].
    destruct x as [|l], y as [|k]; cbn [isNil elems]; try done.
    + cbn in Hf. destruct k as [|a [|b k]]; cbn in Hf; try done.
      destruct (elementsEqual _ _) eqn:He; [|done].
      apply elementsEqual_length in He. rewrite SliceStable_length in He.
      by rewrite SliceStable_length in He.
    + unfold sortSlicesFilter in Hf. cbn [length] in Hf.
      destruct l as [|a [|b l]]; cbn in Hf; try done.
      destruct (elementsEqual _ _) eqn:He; [|done].
      apply elementsEqual_length in He. rewrite SliceStable_length in He.
      by rewrite SliceStable_length in He.
  - (* it does not: both slices are short, or both are sorted *)
    assert (SliceStable less (elems x) = elems x
            ∧ SliceStable less (elems y) = elems y) as [-> ->].
    { unfold sortSlicesFilter in Hf.
      destruct (length (elems x) <=? 1)%nat eqn:Hx,
               (length (elems y) <=? 1)%nat eqn:Hy; cbn [andb] in Hf.
      - apply Nat.leb_le in Hx, Hy. by split; apply SliceStable_short.
      - apply orb_false_elim in Hf as [Sx%negb_false_iff Sy%negb_false_iff].
        by split; apply SliceStable_sorted_id.
      - apply orb_false_elim in Hf as [Sx%negb_false_iff Sy%negb_false_iff].
        by split; apply SliceStable_sorted_id.
      - apply orb_false_elim in Hf as [Sx%negb_false_iff Sy%negb_false_iff].
        by split; apply SliceStable_sorted_id. }
    unfold sliceEqual. by destruct x as [|l], y as [|k].
Qed.

(** From here on [less] is a strict total order and [cmp.Equal] on
    elements decides equality. *)
Hypothesis less_irreflexive : ∀ a, less a a = false.
Hypothesis less_transitive :
  ∀ a b c, less a b = true → less b c = true → less a c = true.
Hypothesis less_total : ∀ a b, a ≠ b → less a b = true ∨ less b a = true.
Hypothesis cmpEqual_eq : ∀ a b, cmpEqual a b = true ↔ a = b.

Lemma less_asymmetric a b : less a b = true → less b a = false.
Proof.
  intros Hab. destruct (less b a) eqn:Hba; [|done].
  by rewrite <- (less_irreflexive a), (less_transitive a b a Hab Hba).
Qed.

Lemma notAfter_transitive : Transitive (notAfter less).
Proof.
  intros a b c Hab Hbc. unfold notAfter in *.
  destruct (less c a) eqn:Hca; [|done].
  destruct (less b c) eqn:Hbc'.
  - by rewrite (less_transitive b c a Hbc' Hca) in Hab.
  - destruct (less_total b c) as [Hl|Hl]; [|congruence..].
    intros ->. congruence.
Qed.

Lemma notAfter_antisymmetric : AntiSymm (=) (notAfter less).
Proof.
  intros a b Hab Hba. unfold notAfter in *.
  destruct (less a b) eqn:E1; [done|].
  destruct (less b a) eqn:E2; [done|].
  clear Hab Hba.
  assert (¬ a ≠ b) as Hnn.
  { intros Hne. destruct (less_total a b Hne); congruence. }
  (* equality of [T] is decided by [cmpEqual] *)
  destruct (cmpEqual a b) eqn:Ec.
  - by apply cmpEqual_eq.
  - exfalso. apply Hnn. intros Heq. apply cmpEqual_eq in Heq. congruence.
Qed.

Lemma insertSorted_Sorted a l :
  Sorted (notAfter less) l → Sorted (notAfter less) (insertSorted less a l).
Proof.
  induction l as [|b l IH]; intros Hs.
  - repeat constructor.
  - cbn [insertSorted]. destruct (less b a) eqn:Hba.
    + apply Sorted_inv in Hs as [Hx Hb]. constructor; [by apply IH|].
      destruct l as [|c l]; cbn [insertSorted].
      * constructor. by apply less_asymmetric.
      * destruct (less c a).
        -- constructor. by inversion Hb.
        -- constructor. by apply less_asymmetric.
    + constructor; [done|]. by constructor.
Qed.

Lemma SliceStable_Sorted l : Sorted (notAfter less) (SliceStable less l).
Proof.
  induction l as [|a l IH]; [constructor|].
  change (SliceStable less (a :: l)) with (insertSorted less a (SliceStable less l)).
  by apply insertSorted_Sorted.
Qed.

(** Two slices with the same elements sort to the same slice. *)
Lemma SliceStable_Permutation_eq l k :
  l ≡ₚ k → SliceStable less l = SliceStable less k.
Proof.
  intros Hp.
  apply (Sorted_unique_strong (notAfter less) (Transitive0 := notAfter_transitive)).
  - intros a b _ _. apply notAfter_antisymmetric.
  - apply SliceStable_Sorted.
  - apply SliceStable_Sorted.
  - by rewrite !SliceStable_Permutation.
Qed.

Lemma elementsEqual_eq l k : elementsEqual l k = true ↔ l = k.
Proof.
  revert k. induction l as [|a l IH]; intros [|b k]; cbn; try done.
  rewrite andb_true_iff, cmpEqual_eq, IH. split; [by intros [-> ->]|].
  by intros [= -> ->].
Qed.

Lemma cmpEqualSortSlices_Permutation x y :
  cmpEqualSortSlices less x y = true
  ↔ isNil x = isNil y ∧ elems x ≡ₚ elems y.
Proof.
  rewrite cmpEqualSortSlices_sorted, andb_true_iff, bool_decide_eq_true,
    elementsEqual_eq.
  split; intros [Hn Hs]; (split; [done|]).
  - by rewrite <- (SliceStable_Permutation (elems x)), Hs,
      SliceStable_Permutation.
  - by apply SliceStable_Permutation_eq.
Qed.



End UnorderedFacts.




(** ** Errors of a bounded wait *)

Section Messages.
Lemma string_length_app (s1 s2 : string) :
  String.length (s1 +:+ s2) = (String.length s1 + String.length s2)%nat.
Proof. induction s1 as [|c s1 IH]; [done|]. simpl. f_equal. exact IH. Qed.

(** A message that ends in "(deadline exceeded)" is not the message of
    rendering case 2, whatever stands before the ending. *)
Lemma noValuesMessage_distinct (path text : string) :
  path +:+ ": " +:+ text +:+ " (deadline exceeded)" ≠ noValuesMessage path.
Proof.
  unfold noValuesMessage. intros Heq.
  apply (inj (String.app path)) in Heq.
  apply (inj (String.app ": ")) in Heq.
  assert (String.length text = 28%nat) as Hlen.
  { apply (f_equal String.length) in Heq.
    rewrite string_length_app in Heq. cbn in Heq. lia. }
  pose proof (String.append_correct2 text " (deadline exceeded)" 19) as Hget.
  rewrite Hlen in Hget. change (19 + 28)%nat with 47%nat in Hget.
  change (text ++ " (deadline exceeded)")%string
    with (text +:+ " (deadline exceeded)") in Hget.
  rewrite Heq in Hget. discriminate Hget.
Qed.
End Messages.

(** C10.  Every error of [Await] is a [validationError] with [failureCause]
    set.  If [Await] opened a watch, [validationErr] is set too, so the
    message is not rendered by case 2 of [Error]: with a timeout cause it
    reads "<path>: <validationErr> (deadline exceeded)", which is not
    "<path>: deadline exceeded before any values were fetched".  An error of
    [Await] that is rendered by case 2 comes from no watch: it is [Check]'s
    error for a fetch that failed with a timeout. *)
Theorem Await_error_has_failureCause {T} (vd : validation T) (ctx : Context)
    (client : Client T) (e : error)
    (returned : (Await vd ctx client).1 = Some e) :
  ∃ f, e = validationError f
    ∧ failureCause f ≠ None
    ∧ (watches (Await vd ctx client).2 ≠ [] →
         ∃ verr, validationErr f = Some verr
           ∧ (isTimeout (failureCause f) = true →
                Error e
                = Path vd +:+ ": " +:+ Error verr +:+ " (deadline exceeded)"
                ∧ Error e ≠ noValuesMessage (Path vd)))
    ∧ (isTimeout (failureCause f) = true → validationErr f = None →
         watches (Await vd ctx client).2 = []
         ∧ Await vd ctx client = Check vd client
         ∧ Error e = noValuesMessage (Path vd)
         ∧ ∃ err, lookupReply client (vquery vd) = FetchFailed err
                  ∧ isTimeout (Some err) = true).
Proof.
  destruct (Check vd client) as [[ce|] clog] eqn:HC.
  - (* Check returned an error *)
    assert ((Check vd client).1 = Some ce) as Hce by (by rewrite HC).
    destruct (Check_error_shape _ _ _ Hce)
      as [(err & Hl & ->)|(v & verr0 & Hl & Hv & ->)].
    + (* the fetch failed: Await returns Check's error *)
      assert (Await vd ctx client = Check vd client) as HA.
      { apply Await_no_watch. right. eexists. split; [exact Hce|done]. }
      rewrite HA in *. rewrite Hce in returned. injection returned as <-.
      eexists. split; [done|]. cbn [failureCause validationErr].
      split; [done|]. rewrite Check_watches.
      split; [done|]. intros Ht _.
      split; [done|]. split; [done|]. split.
      * cbn [Error failureCause validationErr]. rewrite Ht. done.
      * by exists err.
    + (* the fetched value failed validation: the watch phase *)
      pose proof (Await_watch vd ctx client _ Hce eq_refl) as HA.
      cbv zeta in HA. cbn [validationErr] in HA.
      set (stream := watchReply client ctx (vquery vd)) in *.
      rewrite HA in returned. cbn [fst] in returned.
      destruct (watchLoop _ _ _ _).1.1 as [werr|] eqn:Hw; [|done].
      injection returned as <-.
      pose proof (watchLoop_keeps_failure vd (delivered stream) (terminal stream)
                    (Some verr0) ltac:(done) werr Hw) as Hrec.
      destruct (watchLoop _ _ _ _).1.2 as [verr|] eqn:Hli; [|done].
      eexists. split; [done|]. cbn [failureCause validationErr].
      split; [done|]. split; [|done].
      intros _. exists verr. split; [done|]. intros Ht.
      cbn [Error failureCause validationErr]. rewrite Ht.
      split; [done|]. apply noValuesMessage_distinct.
  - (* Check returned nil: so does Await *)
    assert (Await vd ctx client = Check vd client) as HA.
    { apply Await_no_watch. left. by rewrite HC. }
    rewrite HA, HC in returned. done.
Qed.

Lemma Await_error_has_failureCause_witness :
  ∃ f, validationError (sampleError (Some (errorString "got 3, want 5"))
                          (Some deadlineError))
       = validationError f
    ∧ failureCause f ≠ None
    ∧ (watches (Await (Equal samplePath 5%Z) Background
                  (device (held 4%Z) [held 3%Z])).2 ≠ [] →
         ∃ verr, validationErr f = Some verr
           ∧ (isTimeout (failureCause f) = true →
                Error (validationError
                         (sampleError (Some (errorString "got 3, want 5"))
                            (Some deadlineError)))
                = Path (Equal samplePath 5%Z) +:+ ": " +:+ Error verr
                  +:+ " (deadline exceeded)"
                ∧ Error (validationError
                           (sampleError (Some (errorString "got 3, want 5"))
                              (Some deadlineError)))
                  ≠ noValuesMessage (Path (Equal samplePath 5%Z))))
    ∧ (isTimeout (failureCause f) = true → validationErr f = None →
         watches (Await (Equal samplePath 5%Z) Background
                    (device (held 4%Z) [held 3%Z])).2 = []
         ∧ Await (Equal samplePath 5%Z) Background (device (held 4%Z) [held 3%Z])
           = Check (Equal samplePath 5%Z) (device (held 4%Z) [held 3%Z])
         ∧ Error (validationError
                    (sampleError (Some (errorString "got 3, want 5"))
                       (Some deadlineError)))
           = noValuesMessage (Path (Equal samplePath 5%Z))
         ∧ ∃ err, lookupReply (device (held 4%Z) [held 3%Z])
                    (vquery (Equal samplePath 5%Z)) = FetchFailed err
                  ∧ isTimeout (Some err) = true).
Proof.
  apply (Await_error_has_failureCause (Equal samplePath 5%Z) Background
           (device (held 4%Z) [held 3%Z])).
  reflexivity.
Defined.

(** ** The properties at work on sample devices *)

Lemma Check_one_fetch_one_cause_witness :
  lookups (Check (Equal samplePath 5%Z) (device (held 4%Z) [])).2 = [samplePath]
  ∧ ((Check (Equal samplePath 5%Z) (unreachable deadlineError)).1
     = Some (validationError (sampleError None (Some deadlineError)))
     ∧ validated (Check (Equal samplePath 5%Z) (unreachable deadlineError)).2 = []
     ∧ (Check (Equal samplePath 5%Z) (unreachable deadlineError)).2
       = [EvLookup samplePath])
  ∧ (Check (Equal samplePath 5%Z) (device (held 4%Z) [])).1
    = Some (validationError
        (sampleError (Some (errorString "got 4, want 5")) None))
  ∧ (Check (Equal samplePath 5%Z) (device (held 5%Z) [])).1 = None.
Proof.
  split; [|split; [|split]].
  - exact (proj1 (Check_one_fetch_one_cause (Equal samplePath 5%Z)
                    (device (held 4%Z) []))).
  - exact (proj1 (proj2 (Check_one_fetch_one_cause (Equal samplePath 5%Z)
                           (unreachable deadlineError))) deadlineError eq_refl).
  - exact (proj1 (proj2 (proj1 (proj2 (proj2 (Check_one_fetch_one_cause
             (Equal samplePath 5%Z) (device (held 4%Z) []))))
             (held 4%Z) eq_refl))
           (errorString "got 4, want 5") eq_refl).
  - exact (proj2 (proj2 (proj1 (proj2 (proj2 (Check_one_fetch_one_cause
             (Equal samplePath 5%Z) (device (held 5%Z) []))))
             (held 5%Z) eq_refl))
           eq_refl).
Defined.

Lemma Await_check_then_watch_witness :
  ((Await (Equal samplePath 5%Z) Background
      (device (held 4%Z) [held 3%Z; held 5%Z; held 6%Z])).1 = None
   ∧ validated (Await (Equal samplePath 5%Z) Background
        (device (held 4%Z) [held 3%Z; held 5%Z; held 6%Z])).2
     = validated (Check (Equal samplePath 5%Z)
         (device (held 4%Z) [held 3%Z; held 5%Z; held 6%Z])).2
       ++ [held 3%Z] ++ [held 5%Z])
  ∧ (Await (Equal samplePath 5%Z) Background
       (device (held 7%Z) [held 3%Z; held 4%Z])).1
    = Some (validationError
        (sampleError (Some (errorString "got 4, want 5")) (Some deadlineError)))
  ∧ Await (Equal samplePath 5%Z) Background (unreachable deadlineError)
    = Check (Equal samplePath 5%Z) (unreachable deadlineError).
Proof.
  split; [|split].
  - refine (proj1 (proj2 (proj2 (proj2 (proj2 (proj2 (Await_check_then_watch
      (Equal samplePath 5%Z) Background
      (device (held 4%Z) [held 3%Z; held 5%Z; held 6%Z])))))
      (sampleError (Some (errorString "got 4, want 5")) None) eq_refl eq_refl))
      [held 3%Z] (held 5%Z) [held 6%Z] eq_refl _ eq_refl).
    constructor; [discriminate | constructor].
  - refine (proj1 (proj2 (proj2 (proj2 (proj2 (proj2 (proj2 (Await_check_then_watch
      (Equal samplePath 5%Z) Background
      (device (held 7%Z) [held 3%Z; held 4%Z])))))
      (sampleError (Some (errorString "got 7, want 5")) None) eq_refl eq_refl)) _)).
    constructor; [discriminate | constructor; [discriminate | constructor]].
  - exact (proj1 (proj1 (proj2 (proj2 (proj2 (Await_check_then_watch
      (Equal samplePath 5%Z) Background (unreachable deadlineError)))))
      (sampleError None (Some deadlineError)) eq_refl ltac:(discriminate))).
Defined.

Lemma Predicate_requires_presence_witness :
  validationFn (Predicate samplePath "want a multiple of 4"
                  (λ n, (n mod 4 =? 0)%Z)) (absent 0%Z)
  = (Some (errorString "got no value, want a multiple of 4"), [])
  ∧ (Check (NotEqual samplePath 5%Z) (device (absent 0%Z) [])).1 ≠ None
  ∧ (Check (NotEqual samplePath 5%Z) (device (held 5%Z) [])).1 ≠ None
  ∧ (Check (NotEqual samplePath 5%Z) (device (held 6%Z) [])).1 = None.
Proof.
  split; [|split; [|split]].
  - exact (proj1 (proj1 (Predicate_requires_presence samplePath)
             "want a multiple of 4" (λ n, (n mod 4 =? 0)%Z) (absent 0%Z)) eq_refl).
  - exact (proj1 (proj2 (Predicate_requires_presence samplePath)
             5%Z (device (absent 0%Z) []) (absent 0%Z) eq_refl) eq_refl).
  - exact (proj1 (proj2 (proj2 (Predicate_requires_presence samplePath)
             5%Z (device (held 5%Z) []) (held 5%Z) eq_refl)) eq_refl eq_refl).
  - exact (proj2 (proj2 (proj2 (Predicate_requires_presence samplePath)
             5%Z (device (held 6%Z) []) (held 6%Z) eq_refl)) eq_refl eq_refl).
Defined.

Lemma EqualOrNil_absent_or_equal_witness :
  verdict (EqualOrNil samplePath 5%Z) (absent 0%Z) = None
  ∧ verdict (EqualOrNil samplePath 5%Z) (held 5%Z) = None
  ∧ verdict (EqualOrNil samplePath 5%Z) (held 4%Z)
    = Some (errorString "got 4, want 5 or no value").
Proof.
  split; [|split].
  - exact (proj1 (EqualOrNil_absent_or_equal samplePath 5%Z (absent 0%Z)) eq_refl).
  - exact (proj1 (proj2 (EqualOrNil_absent_or_equal samplePath 5%Z (held 5%Z)))
             eq_refl eq_refl).
  - exact (proj1 (proj1 (proj2 (proj2
             (EqualOrNil_absent_or_equal samplePath 5%Z (held 4%Z))))
             eq_refl eq_refl)).
Defined.

(** The scenarios of the specification, run on the model. *)

Example scenario_Present_absent :
  Error <$> (Check (Present samplePath) (device (absent 0%Z) [])).1
  = Some "/system/state/hostname: got no value, want any value".
Proof. reflexivity. Qed.

Example scenario_Equal :
  (Check (Equal samplePath 5%Z) (device (held 5%Z) [])).1 = None
  ∧ Error <$> (Check (Equal samplePath 6%Z) (device (held 5%Z) [])).1
    = Some "/system/state/hostname: got 5, want 6".
Proof. split; reflexivity. Qed.

Example scenario_Await_second_delivery :
  (Await (Equal samplePath 5%Z) Background
     (device (held 0%Z) [held 4%Z; held 5%Z])).1 = None.
Proof. reflexivity. Qed.

Example scenario_Await_deadline :
  Error <$> (Await (Equal samplePath 5%Z) (WithTimeout 0%Z Background 1000%Z)
     (device (held 0%Z) [held 4%Z])).1
  = Some "/system/state/hostname: got 4, want 5 (deadline exceeded)".
Proof. reflexivity. Qed.

Example scenario_UnorderedEqual :
  verdict (UnorderedEqual Z.ltb samplePath (sliceOf [3; 1; 2]%Z))
    (held (sliceOf [1; 2; 3]%Z)) = None
  ∧ verdict (UnorderedEqual Z.ltb samplePath (sliceOf [3; 1; 2]%Z))
      (held (sliceOf [2; 1; 3]%Z)) = None
  ∧ Error <$> verdict (UnorderedEqual Z.ltb samplePath (sliceOf [3; 1; 2]%Z))
                (held (sliceOf [1; 2]%Z))
    = Some "got []int{1, 2}, want []int{3, 1, 2}".
Proof. repeat split; reflexivity. Qed.

(** * Further properties of the validators *)

Section MoreCoreFacts.
Context {T : Type}.
Implicit Types (vd : validation T) (client : Client T) (v : Value T).

Lemma lookups_cons (e : Event T) l : lookups (e :: l) = lookups [e] ++ lookups l.
Proof. apply (lookups_app [e]). Qed.

(** The callback fetches nothing. *)
Lemma watchLoop_awaitPred_lookups vd values term s :
  lookups (watchLoop (awaitPred vd) values term s).2 = [].
Proof.
  revert s. induction values as [|u values IH]; intros s; [done|].
  rewrite watchLoop_cons, awaitPred_run.
  destruct (verdict vd u); cbn [fst snd Is_Continue];
    rewrite ?lookups_app, lookups_cons, ?IH;
    by rewrite (proj1 (calls_silent _)).
Qed.

(** The watch ends with success exactly when some delivered value passes. *)
Lemma watchLoop_success vd values term s :
  (watchLoop (awaitPred vd) values term s).1.1 = None
  ↔ Exists (λ v, verdict vd v = None) values.
Proof.
  revert s. induction values as [|u values IH]; intros s.
  - cbn. split; [done|]. by intros ?%Exists_nil.
  - rewrite watchLoop_cons, awaitPred_run, Exists_cons.
    destruct (verdict vd u) as [uerr|] eqn:Eu; cbn [fst snd Is_Continue].
    + rewrite IH. split; [by right|]. by intros [?|?].
    + split; [by left|done].
Qed.

(** The calls of [Await]: one lookup, and no watch or one. *)
Lemma Await_calls vd ctx client :
  lookups (Await vd ctx client).2 = [vquery vd]
  ∧ (watches (Await vd ctx client).2 = []
     ∨ watches (Await vd ctx client).2 = [(ctx, vquery vd)]).
Proof.
  destruct (Check vd client).1 as [e|] eqn:He.
  - destruct (Check_error_shape _ _ _ He)
      as [(err & _ & ->)|(v & verr & _ & _ & ->)].
    + rewrite Await_no_watch by (right; eexists; by split).
      split; [apply Check_lookups | left; apply Check_watches].
    + rewrite (Await_watch vd ctx client _ He eq_refl). cbn [fst snd]. split.
      * rewrite lookups_app, Check_lookups, lookups_cons.
        by rewrite watchLoop_awaitPred_lookups.
      * right. rewrite watches_app, Check_watches, watches_cons.
        by rewrite watchLoop_awaitPred_watches.
  - rewrite Await_no_watch by (by left).
    split; [apply Check_lookups | left; apply Check_watches].
Qed.

(** Every error of [Check] and of [Await] is about the validator's query. *)
Lemma Check_error_query vd client e :
  (Check vd client).1 = Some e →
  ∃ f, e = validationError f ∧ query f = vquery vd.
Proof.
  intros He. destruct (Check_error_shape _ _ _ He)
    as [(err & _ & ->)|(v & verr & _ & _ & ->)]; by eexists.
Qed.

Lemma Await_error_query vd ctx client e :
  (Await vd ctx client).1 = Some e →
  ∃ f, e = validationError f ∧ query f = vquery vd.
Proof.
  destruct (Check vd client).1 as [ce|] eqn:He.
  - destruct (Check_error_shape _ _ _ He)
      as [(err & _ & ->)|(v & verr & _ & _ & ->)].
    + rewrite Await_no_watch by (right; eexists; by split).
      rewrite He. intros [= <-]. by eexists.
    + rewrite (Await_watch vd ctx client _ He eq_refl). cbn [fst snd].
      destruct (watchLoop _ _ _ _).1.1; [|done]. intros [= <-]. by eexists.
  - rewrite Await_no_watch by (by left). by rewrite He.
Qed.

(** The message of a [validationError] starts with its path. *)
Lemma Error_path_prefix (f : validationErrorOf error) :
  ∃ detail, Error (validationError f)
            = FormatPath (QueryPathStruct (query f)) +:+ ": " +:+ detail.
Proof.
  cbn [Error]. unfold qStr.
  destruct (isTimeout (failureCause f)), (validationErr f), (failureCause f);
    by eexists.
Qed.
End MoreCoreFacts.

(** X1.  Whichever way a validator is run, [Check], [Await], [AwaitFor] or
    [AwaitUntil], the message of an error it returns starts with the
    validator's [Path] followed by a colon and a space. *)
Theorem validator_error_starts_with_Path {T} (now : Time) (vd : validation T)
    (ctx : Context) (timeout : Duration) (deadline : Time) (client : Client T)
    (run : Logged (Event T) (option error)) (e : error)
    (ran : run ∈ [Check vd client; Await vd ctx client;
                  AwaitFor now vd timeout client;
                  AwaitUntil now vd deadline client])
    (returned : run.1 = Some e) :
  ∃ detail, Error e = Path vd +:+ ": " +:+ detail.
Proof.
  assert (∃ f, e = validationError f ∧ query f = vquery vd) as (f & -> & Hq).
  { rewrite !elem_of_cons, elem_of_nil in ran.
    destruct ran as [->|[->|[->|[->|[]]]]].
    - by apply (Check_error_query vd client).
    - by apply (Await_error_query vd ctx client).
    - unfold AwaitFor in returned. destruct (timeout <=? 0)%Z.
      + by apply (Check_error_query vd client).
      + by eapply Await_error_query.
    - unfold AwaitUntil in returned. destruct (deadline <? now)%Z.
      + by apply (Check_error_query vd client).
      + by eapply Await_error_query. }
  unfold Path. rewrite <- Hq. apply Error_path_prefix.
Qed.

Lemma validator_error_starts_with_Path_witness :
  ∃ detail,
    Error (validationError
             (sampleError (Some (errorString "got 3, want 5"))
                (Some deadlineError)))
    = Path (Equal samplePath 5%Z) +:+ ": " +:+ detail.
Proof.
  apply (validator_error_starts_with_Path 100%Z (Equal samplePath 5%Z) Background
           7%Z 100%Z (device (held 4%Z) [held 3%Z])
           (AwaitFor 100%Z (Equal samplePath 5%Z) 7%Z (device (held 4%Z) [held 3%Z]))).
  - rewrite !elem_of_cons. right. right. left. reflexivity.
  - reflexivity.
Defined.

(** X2.  [Await], [AwaitFor] and [AwaitUntil] fetch the query exactly once,
    whatever the context, timeout or deadline, and open at most one watch. *)
Theorem Await_fetches_once {T} (now : Time) (vd : validation T) (ctx : Context)
    (timeout : Duration) (deadline : Time) (client : Client T) :
  Forall (λ run : Logged (Event T) (option error),
            lookups run.2 = [vquery vd] ∧ (length (watches run.2) ≤ 1)%nat)
    [Await vd ctx client; AwaitFor now vd timeout client;
     AwaitUntil now vd deadline client].
Proof.
  assert (∀ c, lookups (Await vd c client).2 = [vquery vd]
               ∧ (length (watches (Await vd c client).2) ≤ 1)%nat) as HA.
  { intros c. destruct (Await_calls vd c client) as [Hl [-> | ->]];
      (split; [done | cbn; lia]). }
  assert (lookups (Check vd client).2 = [vquery vd]
          ∧ (length (watches (Check vd client).2) ≤ 1)%nat) as HC.
  { rewrite Check_lookups, Check_watches. split; [done | cbn; lia]. }
  apply Forall_cons_2; [apply HA|]. apply Forall_cons_2; [|apply Forall_cons_2].
  - unfold AwaitFor. destruct (timeout <=? 0)%Z; [apply HC | apply HA].
  - unfold AwaitUntil. destruct (deadline <? now)%Z; [apply HC | apply HA].
  - apply Forall_nil_2.
Qed.

(** X3.  [Await] returns nil exactly when [Check] returns nil, or [Check]
    reports a validation failure and some value the watch delivers passes
    validation. *)
Theorem Await_nil_iff {T} (vd : validation T) (ctx : Context) (client : Client T) :
  (Await vd ctx client).1 = None
  ↔ (Check vd client).1 = None
    ∨ ((∃ f, (Check vd client).1 = Some (validationError f)
             ∧ failureCause f = None)
       ∧ ∃ v, v ∈ delivered (watchReply client ctx (vquery vd))
              ∧ verdict vd v = None).
Proof.
  destruct (Check vd client).1 as [e|] eqn:He.
  - destruct (Check_error_shape _ _ _ He)
      as [(err & _ & ->)|(v & verr & _ & _ & ->)].
    + rewrite Await_no_watch by (right; eexists; by split). rewrite He.
      split; [done|]. intros [?|[(f & [= <-] & Hf) _]]; done.
    + rewrite (Await_watch vd ctx client _ He eq_refl). cbn [fst snd].
      pose proof (watchLoop_success vd
        (delivered (watchReply client ctx (vquery vd)))
        (terminal (watchReply client ctx (vquery vd))) (Some verr)) as Hs.
      cbn [validationErr]. rewrite Exists_exists in Hs.
      destruct (watchLoop _ _ _ _).1.1 as [werr|].
      * split; [done|]. intros [?|[_ Hv]]; [done|]. by apply Hs in Hv.
      * split; [|done]. intros _. right. split; [by eexists|]. by apply Hs.
  - rewrite Await_no_watch by (by left). rewrite He. split; [by left|done].
Qed.

(** X4.  For a timeout other than zero, [AwaitFor(timeout)] is
    [AwaitUntil(now + timeout)]: same result and same calls. *)
Theorem AwaitFor_is_AwaitUntil {T} (now : Time) (vd : validation T)
    (timeout : Duration) (client : Client T)
    (nonzero : timeout ≠ 0%Z) :
  AwaitFor now vd timeout client = AwaitUntil now vd (now + timeout)%Z client.
Proof.
  unfold AwaitFor, AwaitUntil, WithTimeout.
  destruct (Z.leb_spec timeout 0), (Z.ltb_spec (now + timeout) now);
    try done; lia.
Qed.

Lemma AwaitFor_is_AwaitUntil_witness :
  AwaitFor 100%Z (Equal samplePath 5%Z) 7%Z (device (held 4%Z) [held 5%Z])
  = AwaitUntil 100%Z (Equal samplePath 5%Z) (100 + 7)%Z (device (held 4%Z) [held 5%Z]).
Proof.
  apply (AwaitFor_is_AwaitUntil 100%Z (Equal samplePath 5%Z) 7%Z). lia.
Defined.

(** X5.  [Equal(q, want).Check] on a held value returns nil iff the value is
    deep-equal to [want]; otherwise its message is
    "<path>: got <value>, want <want>", and on an absent value it is
    "<path>: got no value, want <want>". *)
Theorem Equal_Check {T} `{GoValue T} (q : Query) (want : T) (client : Client T)
    (v : Value T) (fetched : lookupReply client q = Fetched v) :
  (present v = true →
     ((Check (Equal q want) client).1 = None ↔ DeepEqual (val v) want = true))
  ∧ (present v = true → DeepEqual (val v) want = false →
       Error <$> (Check (Equal q want) client).1
       = Some (FormatPath (QueryPathStruct q) +:+ ": got " +:+ GoString (val v)
               +:+ ", want " +:+ GoString want))
  ∧ (present v = false →
       Error <$> (Check (Equal q want) client).1
       = Some (FormatPath (QueryPathStruct q) +:+ ": got no value, want "
               +:+ GoString want)).
Proof.
  rewrite (Check_fetched (Equal q want) client v fetched). cbn [fst].
  unfold verdict, Equal. rewrite Predicate_run.
  destruct v as [x [|]]; cbn [present val negb].
  - destruct (DeepEqual x want); cbn; repeat split; intros; done.
  - repeat split; intros; done.
Qed.

Lemma Equal_Check_witness :
  ((Check (Equal samplePath 6%Z) (device (held 5%Z) [])).1 = None
   ↔ DeepEqual 5%Z 6%Z = true)
  ∧ Error <$> (Check (Equal samplePath 6%Z) (device (held 5%Z) [])).1
    = Some "/system/state/hostname: got 5, want 6"
  ∧ Error <$> (Check (Equal samplePath 6%Z) (device (absent 0%Z) [])).1
    = Some "/system/state/hostname: got no value, want 6".
Proof.
  split; [|split].
  - exact (proj1 (Equal_Check samplePath 6%Z (device (held 5%Z) []) (held 5%Z)
                    eq_refl) eq_refl).
  - exact (proj1 (proj2 (Equal_Check samplePath 6%Z (device (held 5%Z) [])
                           (held 5%Z) eq_refl)) eq_refl eq_refl).
  - exact (proj2 (proj2 (Equal_Check samplePath 6%Z (device (absent 0%Z) [])
                           (absent 0%Z) eq_refl)) eq_refl).
Defined.

(** X6.  On a held value exactly one of [Equal(q, x)] and [NotEqual(q, x)]
    passes; on an absent value both fail. *)
Theorem Equal_NotEqual_on_held {T} `{GoValue T} (q : Query) (x : T) (v : Value T) :
  (present v = true →
     (verdict (Equal q x) v = None ∧ verdict (NotEqual q x) v ≠ None)
     ∨ (verdict (Equal q x) v ≠ None ∧ verdict (NotEqual q x) v = None))
  ∧ (present v = false →
       verdict (Equal q x) v ≠ None ∧ verdict (NotEqual q x) v ≠ None).
Proof.
  unfold verdict, Equal, NotEqual. rewrite !Predicate_run.
  destruct v as [y [|]]; cbn [present val negb].
  - split; [|done]. intros _. destruct (DeepEqual y x); cbn; [left|right]; done.
  - split; [done|]. intros _. done.
Qed.

(** X7.  [EqualOrNil(q, want)] passes exactly when [Equal(q, want)] passes or
    [NotPresent(q)] passes, and whenever [Equal(q, want)] passes so does
    [Present(q)]. *)
Theorem EqualOrNil_is_Equal_or_NotPresent {T} `{GoValue T} (q : Query) (want : T)
    (v : Value T) :
  (verdict (EqualOrNil q want) v = None
   ↔ verdict (Equal q want) v = None ∨ verdict (NotPresent q) v = None)
  ∧ (verdict (Equal q want) v = None → verdict (Present q) v = None).
Proof.
  unfold verdict, Equal, Present. rewrite !Predicate_run.
  destruct v as [y [|]]; cbn; destruct (DeepEqual y want); cbn;
    intuition congruence.
Qed.

(** X8.  For a strict total order [less] on elements on which [cmp.Equal]
    is equality, whether [UnorderedEqual] passes on a held sequence does not
    depend on the order in which the elements of [want] are written, as long
    as [want] stays nil or stays not nil; and it passes on [got] against
    [want] iff it passes on [want] against [got]. *)
Theorem UnorderedEqual_order_of_want {T} `{GoValue T} `{GoValue (Slice T)}
    (less : T → T → bool)
    (less_irreflexive : ∀ a, less a a = false)
    (less_transitive :
       ∀ a b c, less a b = true → less b c = true → less a c = true)
    (less_total : ∀ a b, a ≠ b → less a b = true ∨ less b a = true)
    (cmpEqual_eq : ∀ a b : T, cmpEqual a b = true ↔ a = b)
    (q : Query) (want want' got : Slice T)
    (same_nil : isNil want = isNil want')
    (rearranged : elems want ≡ₚ elems want') :
  (verdict (UnorderedEqual less q want) (held got) = None
   ↔ verdict (UnorderedEqual less q want') (held got) = None)
  ∧ (verdict (UnorderedEqual less q want) (held got) = None
     ↔ verdict (UnorderedEqual less q got) (held want) = None).
Proof.
  assert (∀ w g, verdict (UnorderedEqual less q w) (held g) = None
                 ↔ isNil g = isNil w ∧ elems g ≡ₚ elems w) as Hrun.
  { intros w g. unfold verdict, UnorderedEqual. rewrite Predicate_run.
    cbn [held present val negb].
    rewrite <- (cmpEqualSortSlices_Permutation less) by done.
    by destruct (cmpEqualSortSlices less g w). }
  rewrite !Hrun. split.
  - by rewrite same_nil, rearranged.
  - split; intros [Hn Hp]; by split.
Qed.

Lemma UnorderedEqual_order_of_want_witness :
  (verdict (UnorderedEqual Z.ltb samplePath (sliceOf [3; 1; 2]%Z))
     (held (sliceOf [2; 3; 1]%Z)) = None
   ↔ verdict (UnorderedEqual Z.ltb samplePath (sliceOf [1; 2; 3]%Z))
       (held (sliceOf [2; 3; 1]%Z)) = None)
  ∧ (verdict (UnorderedEqual Z.ltb samplePath (sliceOf [3; 1; 2]%Z))
       (held (sliceOf [2; 3; 1]%Z)) = None
     ↔ verdict (UnorderedEqual Z.ltb samplePath (sliceOf [2; 3; 1]%Z))
         (held (sliceOf [3; 1; 2]%Z)) = None).
Proof.
  refine (UnorderedEqual_order_of_want Z.ltb _ _ _ _ samplePath
            (sliceOf [3; 1; 2]%Z) (sliceOf [1; 2; 3]%Z) (sliceOf [2; 3; 1]%Z)
            _ _).
  - intros a. apply Z.ltb_irrefl.
  - intros a b c. rewrite !Z.ltb_lt. lia.
  - intros a b. rewrite !Z.ltb_lt. lia.
  - intros a b. apply Z.eqb_eq.
  - reflexivity.
  - apply (Permutation_cons_append [1; 2]%Z 3%Z).
Defined.

(** * Properties of the forwarding-table checks *)

Section AFTFacts.
Variable GenCIDRs : string → Z → list string.
Implicit Types (dut : DUTDevice) (aft : AFTData) (nhg : aftNextHopGroup).

(** The inner loop, started inside the group's list of next hops with as many
    turns to go as next hops are left, does not leave the list; it runs to
    its end iff the next hops left are well formed for one weight, which is
    [firstWeight] once that is set. *)
Lemma nextHopLoop_spec dut aft pfix nhgID nhg remaining i firstWeight :
  (remaining + i = length (NHIDs nhg))%nat →
  nextHopLoop dut aft pfix nhgID nhg remaining i firstWeight ≠ Panicked
  ∧ (nextHopLoop dut aft pfix nhgID nhg remaining i firstWeight = Returned None
     ↔ ∃ w, w ≠ 0%N ∧ (firstWeight ≠ 0%N → w = firstWeight)
            ∧ Forall (nextHopWellFormed dut aft nhg w) (drop i (NHIDs nhg))).
Proof.
  revert i firstWeight.
  induction remaining as [|remaining IH]; intros i firstWeight Hlen.
  - cbn [nextHopLoop]. split; [done|]. split; [|done]. intros _.
    rewrite drop_ge by lia.
    destruct (decide (firstWeight = 0%N)) as [->|Hfw].
    + exists 1%N. by repeat split.
    + exists firstWeight. by repeat split.
  - destruct (lookup_lt_is_Some_2 (NHIDs nhg) i ltac:(lia)) as [nhID Hid].
    rewrite (drop_S _ _ _ Hid). cbn [nextHopLoop]. rewrite Hid.
    assert (∀ w, Forall (nextHopWellFormed dut aft nhg w)
                   (nhID :: drop (S i) (NHIDs nhg))
                 ↔ nextHopWellFormed dut aft nhg w nhID
                   ∧ Forall (nextHopWellFormed dut aft nhg w)
                       (drop (S i) (NHIDs nhg))) as Hcons
      by (intros w; apply Forall_cons).
    setoid_rewrite Hcons. clear Hcons. unfold nextHopWellFormed at 1.
    destruct (NextHops aft !! nhID) as [nh|] eqn:Hnh; cycle 1.
    { split; [done|]. split; [done|].
      intros (w & _ & _ & (nh' & Hnone & _) & _). done. }
    destruct (negb (SkipInterfaceNameCheck dut) && bool_decide (IntfName nh = ""))
      eqn:Hintf.
    { apply andb_prop in Hintf as [Hskip%negb_true_iff Hempty%bool_decide_eq_true].
      split; [done|]. split; [done|].
      intros (w & _ & _ & (nh' & [= <-] & Hi & _) & _). exfalso. by apply Hi. }
    assert (SkipInterfaceNameCheck dut = false → IntfName nh ≠ "") as Hname.
    { intros Hskip. rewrite Hskip in Hintf. cbn in Hintf.
      by apply bool_decide_eq_false in Hintf. }
    clear Hintf.
    destruct (bool_decide_reflect (IP nh = "")) as [Hip|Hip].
    { split; [done|]. split; [done|].
      intros (w & _ & _ & (nh' & [= <-] & _ & Hi & _) & _). done. }
    destruct (NHWeights nhg !! nhID) as [weight|] eqn:Hw; cycle 1.
    { split; [done|]. split; [done|].
      intros (w & _ & _ & (nh' & _ & _ & _ & Hi) & _). done. }
    destruct (N.leb_spec weight 0) as [Hz|Hz].
    { split; [done|]. split; [done|].
      intros (w & Hw0 & _ & (nh' & _ & _ & _ & [= <-]) & _). exfalso. lia. }
    destruct (N.eqb_spec firstWeight 0) as [->|Hfw].
    { destruct (IH (S i) weight ltac:(lia)) as [Hnp Hiff].
      split; [done|]. rewrite Hiff. split.
      - intros (w & Hw0 & Hweq & Hall).
        assert (w = weight) as -> by (apply Hweq; lia).
        exists weight. split; [done|]. split; [done|]. split; [|done].
        exists nh. by repeat split.
      - intros (w & Hw0 & _ & (nh' & _ & _ & _ & [= <-]) & Hall).
        exists weight. by repeat split. }
    destruct (N.eqb_spec weight firstWeight) as [->|Hne]; cbn [negb].
    + destruct (IH (S i) firstWeight ltac:(lia)) as [Hnp Hiff].
      split; [done|]. rewrite Hiff. split.
      * intros (w & Hw0 & Hweq & Hall).
        assert (w = firstWeight) as -> by (by apply Hweq).
        exists firstWeight. split; [done|]. split; [done|]. split; [|done].
        exists nh. by repeat split.
      * intros (w & Hw0 & Hweq & _ & Hall).
        assert (w = firstWeight) as -> by (by apply Hweq).
        exists firstWeight. by repeat split.
    + split; [done|]. split; [done|].
      intros (w & _ & Hweq & (nh' & _ & _ & _ & [= <-]) & _).
      exfalso. apply Hne. by apply Hweq.
Qed.

(** One turn of the outer loop does not panic, and goes on to the next prefix
    iff the prefix is well formed. *)
Lemma verifyPrefix_spec dut aft wantNHCount pfix :
  verifyPrefix dut aft wantNHCount pfix ≠ Panicked
  ∧ (verifyPrefix dut aft wantNHCount pfix = Returned None
     ↔ prefixWellFormed dut aft wantNHCount pfix).
Proof.
  unfold verifyPrefix, prefixWellFormed.
  destruct (Prefixes aft !! pfix) as [nhgID|] eqn:Hp; cycle 1.
  { split; [done|]. split; [done|]. intros (? & ? & ? & ? & _). done. }
  destruct (NextHopGroups aft !! nhgID) as [nhg|] eqn:Hg; cycle 1.
  { split; [done|]. split; [done|].
    intros (? & ? & ? & [= <-] & Hn & _). exfalso. congruence. }
  destruct (Z.eqb_spec (Z.of_nat (length (NHIDs nhg))) wantNHCount)
    as [Hlen|Hlen]; cbn [negb]; cycle 1.
  { split; [done|]. split; [done|].
    intros (? & ? & ? & [= <-] & Hn & Hl & _). exfalso. congruence. }
  destruct (nextHopLoop_spec dut aft pfix nhgID nhg (Z.to_nat wantNHCount) 0 0%N
              ltac:(lia)) as [Hnp Hiff].
  split; [done|]. rewrite Hiff, drop_0. split.
  - intros (w & Hw0 & _ & Hall). by exists nhgID, nhg, w.
  - intros (nhgID' & nhg' & w & [= <-] & Hn & _ & Hw0 & Hall).
    assert (nhg' = nhg) as -> by congruence.
    exists w. by repeat split.
Qed.

Lemma verifyPrefixesLoop_spec dut aft wantNHCount prefixes :
  verifyPrefixesLoop dut aft wantNHCount prefixes ≠ Panicked
  ∧ (verifyPrefixesLoop dut aft wantNHCount prefixes = Returned None
     ↔ Forall (prefixWellFormed dut aft wantNHCount) prefixes).
Proof.
  induction prefixes as [|pfix rest [IHnp IH]]; [by split|].
  cbn [verifyPrefixesLoop]. rewrite Forall_cons.
  destruct (verifyPrefix_spec dut aft wantNHCount pfix) as [Hnp Hiff].
  destruct (verifyPrefix dut aft wantNHCount pfix) as [[err|]|]; [| |done].
  - split; [done|]. split; [done|]. intros [Hwf _]. by apply Hiff in Hwf.
  - split; [done|]. rewrite IH. split; [|by intros [_ ?]].
    intros Hall. split; [by apply Hiff | done].
Qed.

(** The loop stops at the first prefix that is not well formed, with the
    error for that prefix. *)
Lemma verifyPrefixesLoop_first_failure dut aft wantNHCount pre pfix post :
  Forall (prefixWellFormed dut aft wantNHCount) pre →
  verifyPrefix dut aft wantNHCount pfix ≠ Returned None →
  verifyPrefixesLoop dut aft wantNHCount (pre ++ pfix :: post)
  = verifyPrefix dut aft wantNHCount pfix.
Proof.
  intros Hpre Hbad. induction Hpre as [|p pre Hp _ IH].
  - cbn. by destruct (verifyPrefix dut aft wantNHCount pfix) as [[err|]|].
  - cbn. apply (verifyPrefix_spec dut aft wantNHCount p) in Hp. by rewrite Hp.
Qed.

(** Lookup in a map filled by setting keys to [true]. *)
Lemma lookup_foldl_insert_true (m : gmap string bool) (keys : list string)
    (key : string) :
  foldl (λ m k, <[k := true]> m) m keys !! key
  = if decide (key ∈ keys) then Some true else m !! key.
Proof.
  revert m. induction keys as [|k keys IH]; intros m; [done|].
  cbn [foldl]. rewrite IH.
  destruct (decide (key ∈ keys)) as [Hin|Hin].
  - rewrite decide_True by (by right). done.
  - destruct (decide (key = k)) as [->|Hne].
    + rewrite decide_True by (by left). by rewrite lookup_insert_eq.
    + rewrite decide_False by (by intros [?|?]%elem_of_cons).
      by rewrite lookup_insert_ne.
Qed.
End AFTFacts.

(** X9.  [verifyPrefixes] never indexes a group's next-hop list out of range,
    and it returns nil exactly when every generated prefix is well formed:
    the prefix maps to a next-hop group that exists and lists exactly
    [wantNHCount] next hops, each of which exists, has an IP address, has an
    interface name unless the deviation skips that check, and has a weight;
    and all these weights are one nonzero value. *)
Theorem verifyPrefixes_nil_iff (GenCIDRs : string → Z → list string)
    (dut : DUTDevice) (aft : AFTData) (ip : string) (routeCount wantNHCount : Z) :
  verifyPrefixes GenCIDRs dut aft ip routeCount wantNHCount ≠ Panicked
  ∧ (verifyPrefixes GenCIDRs dut aft ip routeCount wantNHCount = Returned None
     ↔ Forall (prefixWellFormed dut aft wantNHCount) (GenCIDRs ip routeCount)).
Proof. apply verifyPrefixesLoop_spec. Qed.

(** X10.  [verifyPrefixes] reports the first generated prefix that is not
    well formed and looks no further: a first such prefix that the table
    does not hold gives "prefix <p> not found in AFT", whatever follows. *)
Theorem verifyPrefixes_first_missing (GenCIDRs : string → Z → list string)
    (dut : DUTDevice) (aft : AFTData) (ip : string) (routeCount wantNHCount : Z)
    (pre : list string) (pfix : string) (post : list string)
    (generated : GenCIDRs ip routeCount = pre ++ pfix :: post)
    (before : Forall (prefixWellFormed dut aft wantNHCount) pre)
    (missing : Prefixes aft !! pfix = None) :
  verifyPrefixes GenCIDRs dut aft ip routeCount wantNHCount
  = Returned (Some (errorString ("prefix " +:+ pfix +:+ " not found in AFT"))).
Proof.
  unfold verifyPrefixes. rewrite generated.
  rewrite verifyPrefixesLoop_first_failure; [|done|].
  - unfold verifyPrefix. by rewrite missing.
  - unfold verifyPrefix. by rewrite missing.
Qed.

(** X11.  The map built by [generateWantPrefixes] holds [true] at exactly the
    prefixes generated for IPv4 or for IPv6, and holds [false] nowhere. *)
Theorem generateWantPrefixes_keys (GenCIDRs : string → Z → list string)
    (dut : DUTDevice) (pfix : string) :
  (generateWantPrefixes GenCIDRs dut !! pfix = Some true
   ↔ pfix ∈ GenCIDRs startingBGPRouteIPv4 (Z.of_N (routeCount dut IPv4))
     ∨ pfix ∈ GenCIDRs startingBGPRouteIPv6 (Z.of_N (routeCount dut IPv6)))
  ∧ generateWantPrefixes GenCIDRs dut !! pfix ≠ Some false.
Proof.
  unfold generateWantPrefixes. cbv zeta. rewrite !lookup_foldl_insert_true.
  rewrite lookup_empty.
  destruct (decide (pfix ∈ GenCIDRs startingBGPRouteIPv6
                             (Z.of_N (routeCount dut IPv6)))) as [H6|H6];
    destruct (decide (pfix ∈ GenCIDRs startingBGPRouteIPv4
                               (Z.of_N (routeCount dut IPv4)))) as [H4|H4];
    (split; [|done]); split; try done; intros H; try (by left);
    try (by right); try done.
  by destruct H.
Qed.

Lemma verifyPrefixes_first_missing_witness :
  verifyPrefixes sampleCIDRs sampleDUT sampleAFT "200.0.0.0/32" 1 2
  = Returned (Some (errorString "prefix 203.0.113.0/32 not found in AFT")).
Proof.
  apply (verifyPrefixes_first_missing sampleCIDRs sampleDUT sampleAFT
           "200.0.0.0/32" 1 2 ["200.0.0.0/32"] "203.0.113.0/32" []).
  - reflexivity.
  - apply Forall_cons_2; [|apply Forall_nil_2].
    apply verifyPrefix_spec. vm_compute. reflexivity.
  - vm_compute. reflexivity.
Defined.

(** The checks run on the sample table. *)

Example scenario_verifyPrefixes :
  verifyPrefixes (λ ip _, [ip]) sampleDUT sampleAFT "200.0.0.0/32" 1 2
    = Returned None
  ∧ verifyPrefixes (λ ip _, [ip]) sampleDUT sampleAFT "200.0.0.0/32" 1 1
    = Returned (Some (errorString "next hop group 7 has 2 next hops, want 1"))
  ∧ verifyPrefixes (λ ip _, []) sampleDUT sampleAFT "200.0.0.0/32" 0 2
    = Returned None.
Proof. repeat split; vm_compute; reflexivity. Qed.
